(** * UACrunch: a shallow embedding of [UACrunch.py]

    The script collects forensic artifacts from UAC output folders and
    optionally parses them to JSON.  This development embeds its functions
    as Rocq definitions and proves the properties its specification states.

    Conventions of the embedding.
    - A Python [str] is a [string]: its characters are the code points
      below 256, so [lower] and [strip] follow Python on that range.
    - A Python [float] threshold is an exact rational ([Q]): the comparison
      of [is_text_file] is carried out without rounding.  At the default
      threshold, the only one the script uses, this is checked against
      binary64 arithmetic ([is_text_file_f64_default]).
    - The file system is explicit state: a finite map from paths to file
      contents; [print] is a trace of the placements.
    - [try ... except Exception] is modelled by reading files through
      [option]: [None] is the read that raises. *)

From Stdlib Require Import ZArith QArith Qfield Lqa String Ascii List Sorted.
From Stdlib Require Import PrimFloat.
From Stdlib Require Strings.Byte Uint63.
From stdpp Require Import gmap strings list pretty.

Open Scope string_scope.

(** ** Python string operations *)

Definition code (c : ascii) : N := N_of_ascii c.

(** [keyword in s]: substring containment. *)
Fixpoint contains (k s : string) : bool :=
  String.prefix k s ||
  match s with
  | EmptyString => false
  | String _ s' => contains k s'
  end.

(** [s.startswith(p)]. *)
Definition startswith (s p : string) : bool := String.prefix p s.

(** [c.lower()] on the code points below 256: A-Z, and the Latin-1 capitals
    0xC0-0xDE apart from the multiplication sign 0xD7. *)
Definition lower_char (c : ascii) : ascii :=
  let n := code c in
  if ((65 <=? n) && (n <=? 90))%N then ascii_of_N (n + 32)
  else if ((192 <=? n) && (n <=? 222) && negb (n =? 215))%N then ascii_of_N (n + 32)
  else c.

Fixpoint lower (s : string) : string :=
  match s with
  | EmptyString => EmptyString
  | String c s' => String (lower_char c) (lower s')
  end.

(** [c.isspace()] on the code points below 256. *)
Definition isspace (c : ascii) : bool :=
  let n := code c in
  (((9 <=? n) && (n <=? 13)) || ((28 <=? n) && (n <=? 32)) || (n =? 133) || (n =? 160))%N.

Fixpoint lstrip (s : string) : string :=
  match s with
  | EmptyString => EmptyString
  | String c s' => if isspace c then lstrip s' else s
  end.

(** The string with its trailing white space removed: a character is kept
    when it is not white space or something is kept after it. *)
Fixpoint rstrip (s : string) : string :=
  match s with
  | EmptyString => EmptyString
  | String c s' =>
      match rstrip s' with
      | EmptyString => if isspace c then EmptyString else String c EmptyString
      | r => String c r
      end
  end.

(** [s.strip()]. *)
Definition strip (s : string) : string := rstrip (lstrip s).

(** [s.split(sep)] for a one-character separator: never the empty list. *)
Fixpoint str_split (sep : ascii) (s : string) : list string :=
  match s with
  | EmptyString => [EmptyString]
  | String c s' =>
      if Ascii.eqb c sep then EmptyString :: str_split sep s'
      else match str_split sep s' with
           | p :: ps => String c p :: ps
           | [] => [String c EmptyString]
           end
  end.

(** [s.replace(a, b)] for one-character [a] and [b]. *)
Fixpoint replace_char (a b : ascii) (s : string) : string :=
  match s with
  | EmptyString => EmptyString
  | String c s' => String (if Ascii.eqb c a then b else c) (replace_char a b s')
  end.

(** [s[:n]] and [s[n:]]. *)
Fixpoint str_take (n : nat) (s : string) : string :=
  match n, s with
  | S n', String c s' => String c (str_take n' s')
  | _, _ => EmptyString
  end.

Fixpoint str_drop (n : nat) (s : string) : string :=
  match n, s with
  | S n', String _ s' => str_drop n' s'
  | _, _ => s
  end.

(** [s.rfind(c)] as an index counted from 0; [None] is Python's -1. *)
Fixpoint rfind (c : ascii) (s : string) : option nat :=
  match s with
  | EmptyString => None
  | String d s' =>
      match rfind c s' with
      | Some i => Some (S i)
      | None => if Ascii.eqb d c then Some 0%nat else None
      end
  end.

(** ** [os.path] *)

(** [os.path.join(a, b)] (posixpath). *)
Definition path_join (a b : string) : string :=
  if startswith b "/" then b
  else if String.eqb a "" || String.eqb (str_drop (String.length a - 1) a) "/" then a +:+ b
  else a +:+ "/" +:+ b.

(** [os.path.basename(p)]: what follows the last separator. *)
Definition basename (p : string) : string :=
  match rfind "/" p with
  | Some i => str_drop (S i) p
  | None => p
  end.

(** The loop of [genericpath._splitext] that skips leading dots: is there a
    character other than a dot in [p[from:dot]]? *)
Fixpoint has_non_dot (p : string) (from len : nat) : bool :=
  match len with
  | O => false
  | S len' =>
      match String.get from p with
      | Some c => if Ascii.eqb c "." then has_non_dot p (S from) len' else true
      | None => true
      end
  end.

(** [os.path.splitext(p)]: the extension starts at the last dot after the
    last separator, unless only dots precede it in the file name. *)
Definition splitext (p : string) : string * string :=
  match rfind "." p with
  | None => (p, EmptyString)
  | Some dot =>
      let filename := match rfind "/" p with Some i => S i | None => O end in
      if (filename <=? dot)%nat && has_non_dot p filename (dot - filename)
      then (str_take dot p, str_drop dot p)
      else (p, EmptyString)
  end.

(** ** [extract_hostname] *)

Definition is_digit (c : ascii) : bool := ((48 <=? code c) && (code c <=? 57))%N.

Fixpoint count_digits (s : string) : nat :=
  match s with
  | String c s' => if is_digit c then S (count_digits s') else O
  | EmptyString => O
  end.

(** Does [s] start with [-20\d{10,}]? *)
Definition timestamp_here (s : string) : bool :=
  String.prefix "-20" s && (10 <=? count_digits (str_drop 3 s))%nat.

(** The line feed, the one character that [.] does not match. *)
Definition LF : ascii := "010"%char.

(** [re.match(r'(.+?)-20\d{10,}', s)], as the text of group 1: the lazy
    [.+?] takes one character, which is not a line feed, and then as few
    more as possible before the timestamp. *)
Fixpoint match_group1 (s : string) : option string :=
  match s with
  | EmptyString => None
  | String c rest =>
      if Ascii.eqb c LF then None
      else if timestamp_here rest then Some (String c EmptyString)
      else String c <$> match_group1 rest
  end.

Definition extract_hostname (name : string) : string :=
  match match_group1 name with
  | Some g => g
  | None => name
  end.

(** ** [is_text_file] *)

(** [{7, 8, 9, 10, 12, 13, 27} | set(range(0x20, 0x100))]. *)
Definition text_chars : list N :=
  ([7; 8; 9; 10; 12; 13; 27]%N ++ map N.of_nat (seq 32 (256 - 32)))%list.

Definition in_text_chars (b : Byte.byte) : bool :=
  existsb (N.eqb (Byte.to_N b)) text_chars.

Definition Qltb (x y : Q) : bool :=
  match (x ?= y)%Q with Lt => true | _ => false end.

(** [rd] is what opening the file and reading it gives: [None] when that
    raises, the bytes of the file otherwise ([f.read(1024)] keeps the first
    1024 of them). *)
Definition is_text_file (rd : option (list Byte.byte)) (threshold : Q) : bool :=
  match rd with
  | None => false
  | Some content =>
      let chunk := take 1024 content in
      match chunk with
      | [] => false
      | _ :: _ =>
          let nontext := filter (λ b, in_text_chars b = false) chunk in
          Qltb (inject_Z (Z.of_nat (length nontext)) / inject_Z (Z.of_nat (length chunk)))
               (1 - threshold)
      end
  end.

Definition default_threshold : Q := 90 # 100.

(** The same function in binary64, the arithmetic Python runs it in:
    [int / int] is the correctly rounded quotient and [1 - threshold] the
    rounded difference. *)
Definition f64_of_Z (z : Z) : PrimFloat.float := PrimFloat.of_uint63 (Uint63.of_Z z).

Definition nontext_below_f64 (k n : Z) (threshold : PrimFloat.float) : bool :=
  PrimFloat.ltb (PrimFloat.div (f64_of_Z k) (f64_of_Z n))
                (PrimFloat.sub (f64_of_Z 1) threshold).

Definition is_text_file_f64 (rd : option (list Byte.byte)) (threshold : PrimFloat.float)
    : bool :=
  match rd with
  | None => false
  | Some content =>
      let chunk := take 1024 content in
      match chunk with
      | [] => false
      | _ :: _ =>
          let nontext := filter (λ b, in_text_chars b = false) chunk in
          nontext_below_f64 (Z.of_nat (length nontext)) (Z.of_nat (length chunk)) threshold
      end
  end.

(** The binary64 number nearest to 0.90. *)
Definition default_threshold_f64 : PrimFloat.float := 0x1.ccccccccccccdp-1%float.



(** ** The category table *)

(** [CATEGORIES]: a dict, enumerated in the order it is written. *)
Definition CATEGORIES : list (string * list string) :=
  [ ("auth_and_users",
       ["passwd"; "shadow"; "group"; "login"; "who"; "lastlog"; "bash_history"; ".bash_history"]);
    ("cron_persistence", ["cron"; "crontab"; "at"; "systemd-timers"]);
    ("ssh_config", ["sshd_config"; "authorized_keys"; "known_hosts"]);
    ("system_and_auth_logs", ["syslog"; "auth.log"; "secure"; "messages"; "dmesg"]);
    ("temp_suspicious", ["tmp"; "temp"; "suspicious"; "malware"; "binwalk"]);
    ("web_server", ["apache"; "nginx"; "httpd"; "access.log"; "error.log"]);
    ("hashes", []) ].

Definition SKIP_FOLDERS : gset string :=
  {[ "bodyfile"; "hash_executables"; "live_response" ]}.

(** [CATEGORIES[category]]. *)
Definition keywords_of (category : string) : list string :=
  match find (λ e, String.eqb (fst e) category) CATEGORIES with
  | Some e => snd e
  | None => []
  end.

(** ** The file system and [collect_files] *)

Abbreviation data := (list Byte.byte).

(** The input tree; a directory lists its entries in [os.listdir] order. *)
#[warnings="-register-all"] Inductive node : Type :=
  | File (d : data)
  | Dir (entries : list (string * node)).

(** One line of output, [[category] src -> dst]. *)
Record placement : Type :=
  { pl_category : string; pl_src : string; pl_dst : string }.

(** The output tree, as the regular files under it by path, and what was
    printed so far. *)
Record fs_state : Type :=
  { files : gmap string data; printed : list placement }.

(** [shutil.copy2(src, dst)] followed by the [print]. *)
Definition copy2 (category src dst : string) (d : data) (st : fs_state) : fs_state :=
  {| files := <[dst := d]> (files st);
     printed := (printed st ++ [{| pl_category := category; pl_src := src; pl_dst := dst |}])%list |}.

(** Sequencing of a loop body that may not finish. *)
Fixpoint for_each {A S : Type} (body : A → S → option S) (xs : list A) (s : S) : option S :=
  match xs with
  | [] => Some s
  | x :: xs' => s' ← body x s; for_each body xs' s'
  end.

(** [while os.path.exists(dst): dst = join(dest_dir, f"{base}_{count}{ext}");
    count += 1], run for at most [fuel] tests. *)
Fixpoint free_name (fuel : nat) (fs : gmap string data)
    (dest_dir base ext dst : string) (count : nat) : option string :=
  match fuel with
  | O => None
  | S fuel' =>
      match fs !! dst with
      | Some _ =>
          free_name fuel' fs dest_dir base ext
            (path_join dest_dir (base +:+ "_" +:+ pretty count +:+ ext)) (S count)
      | None => Some dst
      end
  end.

(** Lines 140-147: the collision-safe copy of [full_path] to [dest_dir]
    under [base_name].  One more test than there are files is enough
    ([place_in_spec]). *)
Definition place_in (category dest_dir base_name full_path : string) (d : data)
    (st : fs_state) : option fs_state :=
  let dst := path_join dest_dir base_name in
  let '(base, ext) := splitext base_name in
  dst' ← free_name (S (size (files st))) (files st) dest_dir base ext dst 1;
  Some (copy2 category full_path dst' d st).

(** Lines 138-147. *)
Definition place (output_path system_name category username file full_path : string)
    (d : data) (st : fs_state) : option fs_state :=
  let base_name := system_name +:+ "__" +:+ category +:+ "__" +:+ username +:+ "__" +:+ file in
  let dest_dir := path_join (path_join output_path category) "original" in
  place_in category dest_dir base_name full_path d st.

(** [any(keyword in file_lc for keyword in keywords)]. *)
Definition matches (keywords : list string) (file_lc : string) : bool :=
  existsb (λ keyword, contains keyword file_lc) keywords.

(** Lines 134-147: the loop over the table [cats] for one walked file. *)
Definition classify_loop (cats : list (string * list string))
    (output_path system_name username full_path file file_lc : string)
    (d : data) (st : fs_state) : option fs_state :=
  for_each (λ '(category, keywords) st,
      if String.eqb category "hashes" then Some st
      else if matches keywords file_lc
           then place output_path system_name category username file full_path d st
           else Some st)
    cats st.

(** Lines 132-147, for one walked file. *)
Definition classify_and_place (output_path system_name username full_path file : string)
    (d : data) (st : fs_state) : option fs_state :=
  let file_lc := lower file in
  classify_loop CATEGORIES output_path system_name username full_path file file_lc d st.

(** [os.walk(top)], flattened to the files in the order the two loops of
    lines 130-131 visit them: the files of a directory, then its
    subdirectories in turn.  Each file comes with its [root]. *)
Fixpoint walk (top : string) (n : node) : list (string * string * data) :=
  match n with
  | File _ => []
  | Dir entries =>
      (omap (λ e, match snd e with File d => Some (top, fst e, d) | Dir _ => None end) entries
      ++ (fix subdirs (es : list (string * node)) : list (string * string * data) :=
            match es with
            | [] => []
            | (name, sub) :: es' => (walk (path_join top name) sub ++ subdirs es')%list
            end) entries)%list
  end.

(** The entry called [name] of a directory. *)
Definition entry (name : string) (entries : list (string * node)) : option node :=
  snd <$> find (λ e, String.eqb (fst e) name) entries.

(** Lines 114-122: the files of [hash_executables] are copied as they are. *)
Definition copy_hashes (output_path system_name system_path : string)
    (entries : list (string * node)) (st : fs_state) : fs_state :=
  let hash_dir := path_join system_path "hash_executables" in
  match entry "hash_executables" entries with
  | Some (Dir hs) =>
      foldl (λ st e,
          match snd e with
          | File d =>
              let src := path_join hash_dir (fst e) in
              let dst := path_join (path_join (path_join output_path "hashes") "original")
                           (system_name +:+ "__" +:+ fst e) in
              copy2 "hashes" src dst d st
          | Dir _ => st
          end) st hs
  | _ => st
  end.

(** Lines 124-147: the user directories of one system. *)
Definition collect_users (output_path system_name system_path : string)
    (entries : list (string * node)) (st : fs_state) : option fs_state :=
  for_each (λ '(subdir, n) st,
      match n with
      | File _ => Some st
      | Dir _ =>
          if bool_decide (subdir ∈ SKIP_FOLDERS) then Some st
          else
            let subdir_path := path_join system_path subdir in
            let username := subdir in
            for_each (λ '(root, file, d) st,
                classify_and_place output_path system_name username
                  (path_join root file) file d st)
              (walk subdir_path n) st
      end)
    entries st.

(** [collect_files(input_path, output_path)], [input] being the entries of
    [input_path]. *)
Definition collect_files (input : list (string * node)) (input_path output_path : string)
    (st : fs_state) : option fs_state :=
  for_each (λ '(system_name, n) st,
      match n with
      | File _ => Some st
      | Dir entries =>
          if startswith system_name "_" then Some st
          else
            let system_path := path_join input_path system_name in
            collect_users output_path system_name system_path entries
              (copy_hashes output_path system_name system_path entries st)
      end)
    input st.

(** ** Parsed records and the parse phase *)

(** The dicts the parsers build, one constructor per shape. *)
Inductive record : Type :=
  | LogLine (hostname source_file line : string)
  | Passwd (hostname user uid gid desc home shell : string)
  | Shadow (hostname user : string) (has_hash : bool)
  | Group (hostname group gid : string) (members : list string)
  | Sudoers (hostname rule : string).

(** The script's globals [all_parsed] and [summary_data], and the JSON files
    written so far, each as the list that [json.dump] received. *)
Record run_state : Type :=
  { json_files : gmap string (list record);
    all_parsed : list record;
    summary_data : gmap string (gmap string nat) }.

(** [summary_data[hostname]['parsed_files'] += 1] on the nested
    [defaultdict]. *)
Definition bump (hostname : string) (sd : gmap string (gmap string nat))
    : gmap string (gmap string nat) :=
  let inner := default ∅ (sd !! hostname) in
  <[hostname := <["parsed_files" := S (default O (inner !! "parsed_files"))]> inner]> sd.

(** The three statements under [if lines:] and [if result:]. *)
Definition emit (outfile hostname : string) (records : list record) (st : run_state)
    : run_state :=
  {| json_files := <[outfile := records]> (json_files st);
     all_parsed := (all_parsed st ++ records)%list;
     summary_data := bump hostname (summary_data st) |}.

(** The list comprehension of [parse_log]. *)
Definition log_records (hostname original : string) (f : list string) : list record :=
  omap (λ line, if String.eqb (strip line) "" then None
                else Some (LogLine hostname (basename original) (strip line))) f.

(** [infile] is the file as its lines, or [None] when opening or reading
    it raises. *)
Definition parse_log (infile : option (list string)) (outfile hostname original : string)
    (st : run_state) : run_state :=
  match infile with
  | None => st
  | Some f =>
      match log_records hostname original f with
      | [] => st
      | lines => emit outfile hostname lines st
      end
  end.

(** [parts[i]], used where the length of [parts] was tested. *)
Definition field (parts : list string) (i : nat) : string := nth i parts "".

(** The body of the loop of [parse_structured_config]: the record appended
    for one line, if any. *)
Definition structured_line (kind hostname line : string) : option record :=
  let parts := str_split ":" line in
  if startswith kind "passwd" && (7 <=? length parts)%nat then
    Some (Passwd hostname (field parts 0) (field parts 2) (field parts 3)
            (field parts 4) (field parts 5) (field parts 6))
  else if startswith kind "shadow" && (2 <=? length parts)%nat then
    Some (Shadow hostname (field parts 0)
            (negb (existsb (String.eqb (field parts 1)) ["*"; "!"])))
  else if startswith kind "group" && (3 <=? length parts)%nat then
    Some (Group hostname (field parts 0) (field parts 2)
            (if (3 <? length parts)%nat then str_split "," (field parts 3) else []))
  else if startswith kind "sudoers" then Some (Sudoers hostname line)
  else None.

(** [[l.strip() for l in f if l.strip()]]. *)
Definition stripped_lines (f : list string) : list string :=
  filter (λ l, l ≠ "") (map strip f).

Definition structured_records (kind hostname : string) (f : list string) : list record :=
  omap (structured_line kind hostname) (stripped_lines f).

Definition parse_structured_config (filepath : option (list string))
    (outpath kind hostname : string) (st : run_state) : run_state :=
  match filepath with
  | None => st
  | Some f =>
      match stripped_lines f with
      | [] => st
      | lines =>
          match omap (structured_line kind hostname) lines with
          | [] => st
          | result => emit outpath hostname result st
          end
      end
  end.

(** A collected original, as the two ways the parse phase opens it: in
    binary mode ([is_text_file]) and as text lines (the parsers). *)
Record file_view : Type :=
  { fv_bytes : option (list Byte.byte); fv_lines : option (list string) }.

(** [file.replace(".", "_") + ".json"]. *)
Definition json_name (file : string) : string :=
  replace_char "." "_" file +:+ ".json".

(** The body of the inner loop of [parse_all_logs]. *)
Definition parse_file (output_path category file : string) (v : file_view)
    (st : run_state) : run_state :=
  let orig_dir := path_join (path_join output_path category) "original" in
  let parsed_dir := path_join (path_join output_path category) "parsed" in
  let src := path_join orig_dir file in
  if negb (is_text_file (fv_bytes v) default_threshold) then st
  else
    let hostname := extract_hostname file in
    let dst := path_join parsed_dir (json_name file) in
    let keywords := keywords_of category in
    let matched_key := find (λ k, contains k file) keywords in
    match matched_key with
    | Some k =>
        if existsb (String.eqb k) ["passwd"; "shadow"; "group"; "sudoers"]
        then parse_structured_config (fv_lines v) dst k hostname st
        else if matches ["log"; "history"; "authorized_keys"; "hash"] (lower file)
             then parse_log (fv_lines v) dst hostname src st
             else st
    | None =>
        if matches ["log"; "history"; "authorized_keys"; "hash"] (lower file)
        then parse_log (fv_lines v) dst hostname src st
        else st
    end.

(** [parse_all_logs(output_path)]; [listdir category] is the listing of the
    category's [original] directory. *)
Definition parse_all_logs (output_path : string)
    (listdir : string → list (string * file_view)) (st : run_state) : run_state :=
  foldl (λ st c,
      foldl (λ st e, parse_file output_path (fst c) (fst e) (snd e) st) st (listdir (fst c)))
    st CATEGORIES.

(** ** The specification's readings, for comparison with the code *)

(** The category classifier as the specification words it: the first
    category of the table, the sentinel apart, one of whose keywords occurs
    in the lower-cased file name. *)
Definition selects (file : string) (c : string * list string) : bool :=
  negb (String.eqb (fst c) "hashes") && matches (snd c) (lower file).

Definition spec_classify (cats : list (string * list string)) (file : string)
    : option string :=
  fst <$> find (selects file) cats.

(** Every category of the table that selects the file, in table order. *)
Definition matching_categories (cats : list (string * list string)) (file : string)
    : list string :=
  map fst (filter (λ c, selects file c = true) cats).

(** The fraction of the bytes of a chunk that are in [text_chars]. *)
Definition text_fraction (chunk : list Byte.byte) : Q :=
  inject_Z (Z.of_nat (length (filter (λ b, in_text_chars b = true) chunk)))
  / inject_Z (Z.of_nat (length chunk)).

(** The hostname extractor as the specification words it: the prefix
    before the first timestamp that follows at least one character. *)
Fixpoint spec_prefix (s : string) : option string :=
  match s with
  | EmptyString => None
  | String c rest =>
      if timestamp_here rest then Some (String c EmptyString)
      else String c <$> spec_prefix rest
  end.

Definition spec_hostname (name : string) : string :=
  default name (spec_prefix name).

(** The [k]-th file name tried for [base_name], and its path in
    [dest_dir]. *)
Definition candidate_name (base_name : string) (k : nat) : string :=
  match k with
  | O => base_name
  | S _ => fst (splitext base_name) +:+ "_" +:+ pretty k +:+ snd (splitext base_name)
  end.

Definition candidate (dest_dir base_name : string) (k : nat) : string :=
  path_join dest_dir (candidate_name base_name k).

(** Placing one file after another under the same base name. *)
Definition place_all (category dest_dir base_name : string) (srcs : list (string * data))
    (st : fs_state) : option fs_state :=
  for_each (λ '(src, d) st, place_in category dest_dir base_name src d st) srcs st.

(** What [place_all] prints when the [i]-th file goes to the [ks !! i]-th
    candidate. *)
Definition placements (category dest_dir base_name : string) (srcs : list (string * data))
    (ks : list nat) : list placement :=
  zip_with (λ s k, {| pl_category := category; pl_src := fst s;
                      pl_dst := candidate dest_dir base_name k |}) srcs ks.

Definition empty_fs : fs_state := {| files := ∅; printed := [] |}.

Definition empty_run : run_state :=
  {| json_files := ∅; all_parsed := []; summary_data := ∅ |}.

(** ** Inputs of the examples *)

(** Two systems whose hash files get the same name in [hashes/original]. *)
Definition two_hosts : list (string * node) :=
  [ ("web01",
       Dir [("hash_executables", Dir [("backup__hash_executables.md5", File [Byte.x31])])]);
    ("web01__backup",
       Dir [("hash_executables", Dir [("hash_executables.md5", File [Byte.x32])])]) ].

(** One system, and an output tree that a previous run left behind. *)
Definition one_host : list (string * node) :=
  [ ("web01",
       Dir [("hash_executables", Dir [("hash_executables.md5", File [Byte.x32])]);
            ("root", Dir [("passwd", File [Byte.x34])])]) ].

Definition stale_fs : fs_state :=
  {| files := {[ "out/hashes/original/web01__hash_executables.md5" := [Byte.x31];
                 "out/auth_and_users/original/web01__auth_and_users__root__passwd"
                   := [Byte.x33] ]};
     printed := [] |}.

(** Two originals of one category whose names differ in one character. *)
Definition syslog_dot : string :=
  "web01-20230401120000__system_and_auth_logs__root__syslog.1".

Definition syslog_us : string :=
  "web01-20230401120000__system_and_auth_logs__root__syslog_1".

Definition view_of (line : string) : file_view :=
  {| fv_bytes := Some [Byte.x61]; fv_lines := Some [line] |}.

Definition two_syslogs (category : string) : list (string * file_view) :=
  if String.eqb category "system_and_auth_logs"
  then [(syslog_dot, view_of "first"); (syslog_us, view_of "second")]
  else [].

(** Nine printable bytes and one NUL. *)
Definition nine_of_ten : list Byte.byte :=
  replicate 9 Byte.x61 ++ [Byte.x00].

(** ** Notions used in the further properties *)

(** [s[-1]] and [s[0]], where there is one. *)
Definition last_char (s : string) : option ascii :=
  String.get (String.length s - 1) s.

Definition first_char (s : string) : option ascii := String.get 0 s.

(** A non-empty string with no white space at either end. *)
Definition trimmed (s : string) : Prop :=
  (∃ c, first_char s = Some c ∧ isspace c = false)
  ∧ (∃ c, last_char s = Some c ∧ isspace c = false).

(** White space only. *)
Fixpoint is_blank (s : string) : bool :=
  match s with
  | EmptyString => true
  | String c s' => isspace c && is_blank s'
  end.

(** [r["hostname"]], and the shape of a record. *)
Definition record_hostname (r : record) : string :=
  match r with
  | LogLine h _ _ | Passwd h _ _ _ _ _ _ | Shadow h _ _ | Group h _ _ _ | Sudoers h _ => h
  end.

Definition is_log_line (r : record) : bool :=
  match r with LogLine _ _ _ => true | _ => false end.

Definition is_sudoers (r : record) : bool :=
  match r with Sudoers _ _ => true | _ => false end.

(** [summary_data[hostname]['parsed_files']], 0 where an entry is missing. *)
Definition parsed_count (hostname : string) (st : run_state) : nat :=
  default O (summary_data st !! hostname ≫= (λ inner, inner !! "parsed_files")).

(** The run state only grows, by records that satisfy [Q]. *)
Definition grows (Q : record → Prop) (st st' : run_state) : Prop :=
  (∃ new, all_parsed st' = (all_parsed st ++ new)%list ∧ Forall Q new)
  ∧ dom (json_files st) ⊆ dom (json_files st')
  ∧ ∀ h, (parsed_count h st ≤ parsed_count h st')%nat.

(** [sep.join(parts)]. *)
Fixpoint str_join (sep : string) (parts : list string) : string :=
  match parts with
  | [] => EmptyString
  | [p] => p
  | p :: ps => p +:+ sep +:+ str_join sep ps
  end.

(** [c in s] for a character. *)
Fixpoint has_char (c : ascii) (s : string) : bool :=
  match s with
  | EmptyString => false
  | String d s' => Ascii.eqb d c || has_char c s'
  end.

(** Lines 185-187 of [main]: the test on the answer to the prompt,
    [input(...).strip().lower() == 'y']. *)
Definition wants_parse (answer : string) : bool :=
  String.eqb (lower (strip answer)) "y".


(** The directory of the hash category. *)
Definition hashes_dir (output_path : string) : string :=
  path_join (path_join output_path "hashes") "original".

(** The name a hash file gets. *)
Definition hash_dst (output_path system_name file : string) : string :=
  path_join (hashes_dir output_path) (system_name +:+ "__" +:+ file).

(** The step of the loop of lines 117-122. *)
Definition copy_hash (output_path system_name system_path : string)
    (st : fs_state) (e : string * node) : fs_state :=
  match snd e with
  | File d =>
      copy2 "hashes" (path_join (path_join system_path "hash_executables") (fst e))
        (hash_dst output_path system_name (fst e)) d st
  | Dir _ => st
  end.




(** The table without "crontab" and ".bash_history". *)
Definition CATEGORIES_short : list (string * list string) :=
  [ ("auth_and_users",
       ["passwd"; "shadow"; "group"; "login"; "who"; "lastlog"; "bash_history"]);
    ("cron_persistence", ["cron"; "at"; "systemd-timers"]);
    ("ssh_config", ["sshd_config"; "authorized_keys"; "known_hosts"]);
    ("system_and_auth_logs", ["syslog"; "auth.log"; "secure"; "messages"; "dmesg"]);
    ("temp_suspicious", ["tmp"; "temp"; "suspicious"; "malware"; "binwalk"]);
    ("web_server", ["apache"; "nginx"; "httpd"; "access.log"; "error.log"]);
    ("hashes", []) ].

(** * Properties *)

(** ** Strings *)

Lemma str_app_cons (c : ascii) (s t : string) : String c s +:+ t = String c (s +:+ t).
Proof. reflexivity. Qed.

Lemma str_app_nil_l (s : string) : "" +:+ s = s.
Proof. reflexivity. Qed.

Lemma str_app_nil_r (s : string) : s +:+ "" = s.
Proof. induction s as [|c s IH]; [reflexivity | rewrite str_app_cons; f_equal; exact IH]. Qed.

Lemma str_length_app (s1 s2 : string) :
  String.length (s1 +:+ s2) = (String.length s1 + String.length s2)%nat.
Proof.
  induction s1 as [|c s1 IH]; [reflexivity|].
  rewrite str_app_cons. simpl. f_equal. exact IH.
Qed.

Lemma str_app_assoc (s1 s2 s3 : string) : (s1 +:+ s2) +:+ s3 = s1 +:+ (s2 +:+ s3).
Proof.
  induction s1 as [|c s1 IH]; [reflexivity|].
  rewrite !str_app_cons. f_equal. exact IH.
Qed.

Lemma str_app_inv_head (s s1 s2 : string) : s +:+ s1 = s +:+ s2 → s1 = s2.
Proof.
  induction s as [|c s IH]; [trivial|].
  rewrite !str_app_cons. intros [= H]. auto.
Qed.

Lemma str_app_inv_tail (s s1 s2 : string) : s1 +:+ s = s2 +:+ s → s1 = s2.
Proof.
  revert s2. induction s1 as [|c s1 IH]; intros [|c2 s2] H.
  - reflexivity.
  - apply (f_equal String.length) in H. rewrite !str_length_app in H. simpl in H. lia.
  - apply (f_equal String.length) in H. rewrite !str_length_app in H. simpl in H. lia.
  - rewrite !str_app_cons in H. injection H as -> H. f_equal. apply IH, H.
Qed.

Lemma str_take_drop (n : nat) (s : string) : str_take n s +:+ str_drop n s = s.
Proof.
  revert s. induction n as [|n IH]; intros [|c s]; try reflexivity.
  simpl. rewrite str_app_cons. f_equal. apply IH.
Qed.

(** [startswith] and [in] say what their names say. *)
Lemma prefix_app (k s : string) : String.prefix k s = true ↔ ∃ b, s = k +:+ b.
Proof.
  revert s. induction k as [|c k IH]; intros s.
  - split; [intros _; exists s; reflexivity | intros _; destruct s; reflexivity].
  - destruct s as [|c' s].
    + split; [discriminate | intros [b Hb]; discriminate Hb].
    + cbn [String.prefix]. destruct (ascii_dec c c') as [<-|Hne].
      * rewrite IH. split; intros [b Hb]; exists b.
        -- rewrite str_app_cons, <- Hb. reflexivity.
        -- rewrite str_app_cons in Hb. injection Hb as Hb. exact Hb.
      * split; [discriminate | intros [b Hb]].
        rewrite str_app_cons in Hb. injection Hb as Hc _. congruence.
Qed.

Lemma contains_spec (k s : string) :
  contains k s = true ↔ ∃ a b, s = a +:+ k +:+ b.
Proof.
  induction s as [|c s IH].
  - cbn [contains]. rewrite orb_false_r, prefix_app. split.
    + intros [b Hb]. exists "", b. exact Hb.
    + intros (a & b & H). destruct a as [|c a]; [exists b; exact H|].
      rewrite str_app_cons in H. discriminate H.
  - cbn [contains]. rewrite orb_true_iff, prefix_app, IH. split.
    + intros [[b Hb] | (a & b & Hab)].
      * exists "", b. exact Hb.
      * exists (String c a), b. rewrite str_app_cons, Hab. reflexivity.
    + intros (a & b & H). destruct a as [|c' a].
      * left. exists b. exact H.
      * right. rewrite str_app_cons in H. injection H as _ H. exists a, b. exact H.
Qed.

Lemma startswith_slash_cons (c : ascii) (s t : string) :
  startswith (String c s) "/" = startswith (String c t) "/".
Proof.
  unfold startswith. cbn [String.prefix].
  destruct (ascii_dec "/" c); [destruct s, t; reflexivity | reflexivity].
Qed.

(** ** The text classifier *)












(** The same in binary64, and at a threshold that binary64 represents
    exactly: one printable byte out of two at 0.5. *)
Example is_text_file_f64_at_threshold :
  is_text_file_f64 (Some nine_of_ten) default_threshold_f64 = false
  ∧ is_text_file_f64 (Some [Byte.x00; Byte.x61]) 0.5%float = false
  ∧ is_text_file (Some [Byte.x00; Byte.x61]) (1 # 2) = false
  ∧ (text_fraction [Byte.x00; Byte.x61] == 1 # 2)%Q.
Proof. repeat split; vm_compute; reflexivity. Qed.

(** C6: an empty read and a read that raises are both "not text", at every
    threshold, in exact and in binary64 arithmetic: no error leaves the
    function. *)
Theorem is_text_file_unreadable (t : Q) (t64 : float) :
  is_text_file None t = false
  ∧ is_text_file (Some []) t = false
  ∧ is_text_file_f64 None t64 = false
  ∧ is_text_file_f64 (Some []) t64 = false.
Proof. repeat split; reflexivity. Qed.



(** ** The hostname extractor *)

Lemma count_digits_take (s : string) :
  String.length (str_take (count_digits s) s) = count_digits s
  ∧ ∀ j c, String.get j (str_take (count_digits s) s) = Some c → is_digit c = true.
Proof.
  induction s as [|c s [IHlen IHdig]]; [split; [reflexivity | intros j c; destruct j; discriminate]|].
  cbn [count_digits]. destruct (is_digit c) eqn:E.
  - cbn [str_take String.length]. split; [f_equal; exact IHlen |].
    intros [|j] c' H; cbn [String.get] in H.
    + injection H as <-. exact E.
    + apply (IHdig j c' H).
  - split; [reflexivity | intros j c'; destruct j; discriminate].
Qed.

Lemma count_digits_app (ds rest : string) :
  (∀ j c, String.get j ds = Some c → is_digit c = true) →
  (String.length ds ≤ count_digits (ds +:+ rest))%nat.
Proof.
  induction ds as [|c ds IH]; intros H; [simpl; lia|].
  rewrite str_app_cons. cbn [count_digits String.length].
  rewrite (H O c eq_refl). apply le_n_S, IH.
  intros j c' Hj. apply (H (S j) c' Hj).
Qed.

(** [timestamp_here s]: [s] starts with "-20" and ten or more digits. *)
Lemma timestamp_here_spec (s : string) :
  timestamp_here s = true ↔
  ∃ digits rest, s = "-20" +:+ digits +:+ rest
    ∧ (10 ≤ String.length digits)%nat
    ∧ ∀ j c, String.get j digits = Some c → is_digit c = true.
Proof.
  unfold timestamp_here. rewrite andb_true_iff, prefix_app, Nat.leb_le. split.
  - intros [[b ->] Hn]. change (str_drop 3 ("-20" +:+ b)) with b in Hn.
    destruct (count_digits_take b) as [Hlen Hdig].
    exists (str_take (count_digits b) b), (str_drop (count_digits b) b).
    rewrite str_take_drop. split; [reflexivity | split; [lia | exact Hdig]].
  - intros (digits & rest & -> & Hn & Hdig).
    split; [eexists; reflexivity |].
    change (str_drop 3 ("-20" +:+ digits +:+ rest)) with (digits +:+ rest).
    pose proof (count_digits_app digits rest Hdig). lia.
Qed.

Lemma match_group1_found (s : string) (i : nat) :
  (1 ≤ i)%nat →
  timestamp_here (str_drop i s) = true →
  (∀ j, (1 ≤ j < i)%nat → timestamp_here (str_drop j s) = false) →
  (∀ j c, (j < i)%nat → String.get j s = Some c → c ≠ LF) →
  match_group1 s = Some (str_take i s).
Proof.
  revert i. induction s as [|c s IH]; intros i Hi Hts Hmin Hlf.
  - destruct i; [lia | discriminate Hts].
  - destruct i as [|i]; [lia|].
    change (timestamp_here (str_drop i s) = true) in Hts. cbn [match_group1].
    assert (Hc : c ≠ LF) by (apply (Hlf O c); [lia | reflexivity]).
    apply Ascii.eqb_neq in Hc. rewrite Hc.
    destruct i as [|i].
    + change (timestamp_here s = true) in Hts. rewrite Hts. reflexivity.
    + pose proof (Hmin 1%nat ltac:(lia)) as H1.
      change (timestamp_here s = false) in H1. rewrite H1.
      rewrite (IH (S i)); [reflexivity | lia | exact Hts | |].
      * intros j Hj. apply (Hmin (S j)). lia.
      * intros j c' Hj Hget. apply (Hlf (S j) c'); [lia | exact Hget].
Qed.

Lemma match_group1_none (s : string) :
  (∀ j, (1 ≤ j)%nat → timestamp_here (str_drop j s) = false) →
  match_group1 s = None.
Proof.
  induction s as [|c s IH]; intros H; [reflexivity|].
  cbn [match_group1]. destruct (Ascii.eqb c LF); [reflexivity|].
  pose proof (H 1%nat ltac:(lia)) as H1.
  change (timestamp_here s = false) in H1. rewrite H1.
  rewrite IH; [reflexivity|].
  intros j Hj. apply (H (S j)). lia.
Qed.

Lemma match_group1_lf (s : string) (i j : nat) :
  (j < i)%nat →
  String.get j s = Some LF →
  (∀ k, (1 ≤ k < i)%nat → timestamp_here (str_drop k s) = false) →
  match_group1 s = None.
Proof.
  revert i j. induction s as [|c s IH]; intros i j Hj Hget Hmin; [reflexivity|].
  cbn [match_group1]. destruct (Ascii.eqb c LF) eqn:Ec; [reflexivity|].
  destruct j as [|j].
  - simpl in Hget. injection Hget as ->. discriminate Ec.
  - destruct i as [|i]; [lia|].
    pose proof (Hmin 1%nat ltac:(lia)) as H1.
    change (timestamp_here s = false) in H1. rewrite H1.
    rewrite (IH i j); [reflexivity | lia | exact Hget |].
    intros k Hk. apply (Hmin (S k)). lia.
Qed.

Lemma match_group1_no_lf (s : string) :
  (∀ j c, String.get j s = Some c → c ≠ LF) →
  match_group1 s = spec_prefix s.
Proof.
  induction s as [|c s IH]; intros H; [reflexivity|].
  cbn [match_group1 spec_prefix].
  assert (Hc : c ≠ LF) by (apply (H O c); reflexivity).
  apply Ascii.eqb_neq in Hc. rewrite Hc.
  destruct (timestamp_here s); [reflexivity|].
  rewrite IH; [reflexivity|].
  intros j c' Hj. apply (H (S j) c' Hj).
Qed.

(** C8, as the code has it.  Let [i >= 1] be the first index at which a
    timestamp ("-20" and ten or more digits, [timestamp_here_spec]) starts.
    If no line feed comes before [i], the result is the non-empty prefix
    [name[:i]]; if one does, or if there is no such index, the name is
    returned unchanged.  On a name without a line feed this is the
    specification's reading, [spec_hostname]. *)
Theorem extract_hostname_spec (name : string) :
  (∀ i, (1 ≤ i)%nat →
        timestamp_here (str_drop i name) = true →
        (∀ j, (1 ≤ j < i)%nat → timestamp_here (str_drop j name) = false) →
        (∀ j c, (j < i)%nat → String.get j name = Some c → c ≠ LF) →
        extract_hostname name = str_take i name ∧ str_take i name ≠ "")
  ∧ (∀ i j, (j < i)%nat → String.get j name = Some LF →
        (∀ k, (1 ≤ k < i)%nat → timestamp_here (str_drop k name) = false) →
        extract_hostname name = name)
  ∧ ((∀ j, (1 ≤ j)%nat → timestamp_here (str_drop j name) = false) →
        extract_hostname name = name)
  ∧ ((∀ j c, String.get j name = Some c → c ≠ LF) →
        extract_hostname name = spec_hostname name)
  ∧ extract_hostname "web01-20230401120000_syslog" = "web01"
  ∧ extract_hostname "randomfile.txt" = "randomfile.txt".
Proof.
  unfold extract_hostname, spec_hostname.
  split; [| split; [| split; [| split; [| split; reflexivity]]]];
    [| | | intros H; rewrite (match_group1_no_lf name H);
           destruct (spec_prefix name); reflexivity].
  - intros i Hi Hts Hmin Hlf.
    rewrite (match_group1_found name i Hi Hts Hmin Hlf). split; [reflexivity|].
    destruct name; [destruct i; discriminate Hts|]. destruct i; [lia | discriminate].
  - intros i j Hj Hget Hmin. rewrite (match_group1_lf name i j Hj Hget Hmin). reflexivity.
  - intros H. rewrite (match_group1_none name H). reflexivity.
Qed.

Lemma extract_hostname_spec_witness :
  extract_hostname "uac-db02-20240115093000" = "uac-db02" ∧ "uac-db02" ≠ "".
Proof.
  apply (proj1 (extract_hostname_spec "uac-db02-20240115093000") 8%nat).
  - lia.
  - reflexivity.
  - intros j Hj.
    destruct j as [|[|[|[|[|[|[|[|j]]]]]]]]; try lia; reflexivity.
  - intros j c Hj.
    destruct j as [|[|[|[|[|[|[|[|j]]]]]]]]; try lia; simpl; intros [= <-]; discriminate.
Defined.

(** C8 as stated fails on a name with a line feed before the timestamp:
    the timestamp starts at index 2, after the two characters "a" and line
    feed, and the name comes back whole. *)
Lemma extract_hostname_line_feed :
  let name := String "a" (String LF "-201234567890") in
  timestamp_here (str_drop 1 name) = false
  ∧ timestamp_here (str_drop 2 name) = true
  ∧ str_take 2 name ≠ ""
  ∧ spec_hostname name = str_take 2 name
  ∧ extract_hostname name ≠ str_take 2 name
  ∧ extract_hostname name = name.
Proof. repeat split; discriminate. Qed.

(** ** The parsers *)

(** The kinds are told apart by their first letters, so a line that fails
    the test of its own kind matches no later branch. *)
Lemma startswith_exclusive (kind : string) :
  (startswith kind "passwd" = true →
     startswith kind "shadow" = false ∧ startswith kind "group" = false
     ∧ startswith kind "sudoers" = false)
  ∧ (startswith kind "shadow" = true →
     startswith kind "passwd" = false ∧ startswith kind "group" = false)
  ∧ (startswith kind "group" = true →
     startswith kind "passwd" = false ∧ startswith kind "shadow" = false
     ∧ startswith kind "sudoers" = false).
Proof.
  unfold startswith. destruct kind as [|c kind]; [repeat split; discriminate|].
  cbn [String.prefix].
  repeat match goal with
         | |- context [ascii_dec ?a c] => destruct (ascii_dec a c) as [<-|?]
         end; repeat split; try discriminate; try reflexivity; try congruence.
Qed.

Lemma shadow_not_sudoers (kind : string) :
  startswith kind "shadow" = true → startswith kind "sudoers" = false.
Proof.
  unfold startswith. destruct kind as [|c kind]; [discriminate|].
  cbn [String.prefix]. destruct (ascii_dec "s" c) as [<-|?]; [| discriminate].
  destruct kind as [|c kind]; [discriminate|]. cbn [String.prefix].
  destruct (ascii_dec "h" c) as [<-|?]; [| discriminate].
  intros _. destruct (ascii_dec "u" "h"); [discriminate | reflexivity].
Qed.

Lemma parse_structured_config_records (f : list string) (outpath kind hostname : string)
    (st : run_state) :
  parse_structured_config (Some f) outpath kind hostname st =
    match structured_records kind hostname f with
    | [] => st
    | result => emit outpath hostname result st
    end.
Proof.
  unfold parse_structured_config, structured_records.
  destruct (stripped_lines f); reflexivity.
Qed.

(** C4: what the delimited extractor appends for one stripped, non-empty
    line, by kind and number of fields, and that the records of a file are
    those of its lines: a line below the minimum of its kind adds nothing
    and the rest of the file is still parsed. *)
Theorem structured_line_spec (kind hostname line : string) :
  let parts := str_split ":" line in
  (startswith kind "passwd" = true →
     structured_line kind hostname line =
       if decide (7 ≤ length parts)%nat
       then Some (Passwd hostname (field parts 0) (field parts 2) (field parts 3)
                    (field parts 4) (field parts 5) (field parts 6))
       else None)
  ∧ (startswith kind "shadow" = true →
     structured_line kind hostname line =
       if decide (2 ≤ length parts)%nat
       then Some (Shadow hostname (field parts 0)
                    (bool_decide (field parts 1 ≠ "*" ∧ field parts 1 ≠ "!")))
       else None)
  ∧ (startswith kind "group" = true →
     structured_line kind hostname line =
       if decide (3 ≤ length parts)%nat
       then Some (Group hostname (field parts 0) (field parts 2)
                    (if decide (4 ≤ length parts)%nat
                     then str_split "," (field parts 3) else []))
       else None)
  ∧ (∀ f outpath st,
       parse_structured_config (Some f) outpath kind hostname st =
         match omap (structured_line kind hostname)
                 (filter (λ l, l ≠ "") (map strip f)) with
         | [] => st
         | result => emit outpath hostname result st
         end).
Proof.
  intros parts. unfold structured_line. fold parts.
  destruct (startswith_exclusive kind) as (Hp & Hs & Hg).
  split; [| split; [| split]]; [intros Hk | intros Hk | intros Hk |].
  - destruct (Hp Hk) as (-> & -> & ->). rewrite Hk. cbn [andb].
    case_decide as Hlen.
    + apply Nat.leb_le in Hlen. rewrite Hlen. reflexivity.
    + apply Nat.leb_nle in Hlen. rewrite Hlen. reflexivity.
  - destruct (Hs Hk) as (-> & Hgr). rewrite Hk. cbn [andb].
    case_decide as Hlen.
    + apply Nat.leb_le in Hlen. rewrite Hlen. do 2 f_equal.
      cbn [existsb]. rewrite orb_false_r.
      destruct (String.eqb_spec (field parts 1) "*") as [->|H1].
      { rewrite bool_decide_eq_false_2; [reflexivity | intros [? _]; congruence]. }
      destruct (String.eqb_spec (field parts 1) "!") as [->|H2].
      { rewrite bool_decide_eq_false_2; [reflexivity | intros [_ ?]; congruence]. }
      rewrite bool_decide_eq_true_2; [reflexivity | split; assumption].
    + apply Nat.leb_nle in Hlen. rewrite Hlen, Hgr, (shadow_not_sudoers kind Hk).
      reflexivity.
  - destruct (Hg Hk) as (-> & -> & ->). rewrite Hk. cbn [andb].
    case_decide as Hlen.
    + apply Nat.leb_le in Hlen. rewrite Hlen. do 2 f_equal.
      case_decide as H4.
      * replace (3 <? length parts)%nat with true; [reflexivity|].
        symmetry. apply Nat.ltb_lt. lia.
      * replace (3 <? length parts)%nat with false; [reflexivity|].
        symmetry. apply Nat.ltb_nlt. lia.
    + apply Nat.leb_nle in Hlen. rewrite Hlen. reflexivity.
  - intros f outpath st. apply parse_structured_config_records.
Qed.

Lemma structured_line_spec_witness :
  structured_line "passwd" "web01" "alice:x:1001:1001:Alice:/home/alice:/bin/bash"
    = Some (Passwd "web01" "alice" "1001" "1001" "Alice" "/home/alice" "/bin/bash")
  ∧ structured_line "shadow" "web01" "bob:*:18000:0:99999:7:::"
    = Some (Shadow "web01" "bob" false)
  ∧ structured_line "group" "web01" "admins:x:1000:alice,bob"
    = Some (Group "web01" "admins" "1000" ["alice"; "bob"])
  ∧ structured_line "group" "web01" "empty:x:2000"
    = Some (Group "web01" "empty" "2000" [])
  ∧ structured_line "passwd" "web01" "alice:x:1001" = None.
Proof.
  split; [| split; [| split; [| split]]].
  - apply (proj1 (structured_line_spec "passwd" "web01"
                    "alice:x:1001:1001:Alice:/home/alice:/bin/bash")).
    reflexivity.
  - apply (proj1 (proj2 (structured_line_spec "shadow" "web01" "bob:*:18000:0:99999:7:::"))).
    reflexivity.
  - apply (proj1 (proj2 (proj2 (structured_line_spec "group" "web01"
                                  "admins:x:1000:alice,bob")))).
    reflexivity.
  - apply (proj1 (proj2 (proj2 (structured_line_spec "group" "web01" "empty:x:2000")))).
    reflexivity.
  - apply (proj1 (structured_line_spec "passwd" "web01" "alice:x:1001")).
    reflexivity.
Defined.

(** C7: when the file yields no record, or cannot be read, the parser
    leaves the JSON files, the accumulator and the counters as they were. *)
Theorem empty_output_suppressed (infile : option (list string))
    (outfile kind hostname original : string) (st : run_state) :
  ((∀ f, infile = Some f → log_records hostname original f = []) →
     parse_log infile outfile hostname original st = st)
  ∧ ((∀ f, infile = Some f → structured_records kind hostname f = []) →
     parse_structured_config infile outfile kind hostname st = st).
Proof.
  split; intros H.
  - destruct infile as [f|]; [| reflexivity].
    unfold parse_log. rewrite (H f eq_refl). reflexivity.
  - destruct infile as [f|]; [| reflexivity].
    rewrite parse_structured_config_records, (H f eq_refl). reflexivity.
Qed.

Lemma empty_output_suppressed_witness :
  parse_log (Some [" "; ""]) "out.json" "web01" "in/syslog" empty_run = empty_run
  ∧ parse_structured_config (Some ["root:x:0"; " "]) "out.json" "passwd" "web01" empty_run
    = empty_run.
Proof.
  split.
  - apply (proj1 (empty_output_suppressed (Some [" "; ""]) "out.json" "passwd"
                    "web01" "in/syslog" empty_run)).
    intros f [= <-]. reflexivity.
  - apply (proj2 (empty_output_suppressed (Some ["root:x:0"; " "]) "out.json" "passwd"
                    "web01" "in/syslog" empty_run)).
    intros f [= <-]. reflexivity.
Defined.


Lemma json_name_replace (file : string) :
  json_name (replace_char "." "_" file) = json_name file.
Proof.
  unfold json_name. f_equal.
  induction file as [|c file IH]; [reflexivity|].
  cbn [replace_char]. rewrite IH. f_equal.
  destruct (Ascii.eqb c ".") eqn:E; [reflexivity | rewrite E; reflexivity].
Qed.

(** C10: [json_name] is not injective: "a.txt" and "a_txt" share a JSON
    name, and so do any name and the name with its dots replaced.  In the
    parse phase this loses output: of two originals of one category, both
    parsed, only the JSON of the second remains, while the accumulator
    holds the records of both. *)
Theorem json_name_not_injective :
  ("a.txt" ≠ "a_txt" ∧ json_name "a.txt" = json_name "a_txt")
  ∧ (∀ file, json_name (replace_char "." "_" file) = json_name file)
  ∧ (let st := parse_all_logs "out" two_syslogs empty_run in
     syslog_dot ≠ syslog_us
     ∧ all_parsed st = [LogLine "web01" syslog_dot "first";
                        LogLine "web01" syslog_us "second"]
     ∧ json_files st =
         {[ "out/system_and_auth_logs/parsed/" +:+ json_name syslog_us
              := [LogLine "web01" syslog_us "second"] ]}
     ∧ summary_data st = {[ "web01" := {[ "parsed_files" := 2%nat ]} ]}).
Proof.
  split; [split; [discriminate | reflexivity] | split; [exact json_name_replace |]].
  repeat split; try discriminate; vm_compute; reflexivity.
Qed.

(** ** Collision-safe placement *)

(** The base of [splitext] is the whole name or a non-empty proper cut. *)
Lemma splitext_cases (p : string) :
  splitext p = (p, "")
  ∨ ∃ dot, (1 ≤ dot)%nat ∧ splitext p = (str_take dot p, str_drop dot p).
Proof.
  unfold splitext. destruct (rfind "." p) as [dot|]; [| left; reflexivity].
  set (filename := match rfind "/" p with Some i => S i | None => O end).
  destruct ((filename <=? dot)%nat && has_non_dot p filename (dot - filename)) eqn:E;
    [| left; reflexivity].
  right. exists dot. split; [| reflexivity].
  apply andb_prop in E as [_ E].
  destruct (dot - filename)%nat eqn:Ed; [discriminate E | lia].
Qed.

Lemma splitext_app (p : string) : fst (splitext p) +:+ snd (splitext p) = p.
Proof.
  destruct (splitext_cases p) as [-> | (dot & _ & ->)]; simpl.
  - apply str_app_nil_r.
  - apply str_take_drop.
Qed.

Lemma splitext_head (p x : string) :
  startswith x "/" = false →
  startswith (fst (splitext p) +:+ x) "/" = startswith p "/".
Proof.
  intros Hs.
  destruct (splitext_cases p) as [-> | (dot & Hdot & ->)]; simpl.
  - destruct p as [|c p]; [exact Hs | rewrite str_app_cons; apply startswith_slash_cons].
  - destruct dot as [|dot]; [lia|].
    destruct p as [|c p];
      [exact Hs | cbn [str_take]; rewrite str_app_cons; apply startswith_slash_cons].
Qed.

Lemma path_join_rel (a b : string) :
  path_join a b = if startswith b "/" then b else path_join a "" +:+ b.
Proof.
  unfold path_join. destruct (startswith b "/"); [reflexivity|].
  change (startswith "" "/") with false. cbv iota.
  destruct (String.eqb a "" || String.eqb (str_drop (String.length a - 1) a) "/").
  - rewrite str_app_nil_r. reflexivity.
  - rewrite str_app_assoc. reflexivity.
Qed.

Section Candidates.
Variables dest_dir base_name : string.

Lemma candidate_name_head (k : nat) :
  startswith (candidate_name base_name k) "/" = startswith base_name "/".
Proof.
  destruct k as [|k]; [reflexivity|]. unfold candidate_name.
  apply splitext_head. reflexivity.
Qed.

Lemma candidate_name_inj : Inj (=) (=) (candidate_name base_name).
Proof.
  intros j k H.
  pose proof (f_equal String.length (splitext_app base_name)) as Hlen.
  rewrite str_length_app in Hlen.
  destruct j as [|j], k as [|k]; [reflexivity | | |].
  - exfalso. apply (f_equal String.length) in H. unfold candidate_name in H.
    rewrite !str_length_app in H. simpl in H. lia.
  - exfalso. apply (f_equal String.length) in H. unfold candidate_name in H.
    rewrite !str_length_app in H. simpl in H. lia.
  - unfold candidate_name in H.
    apply str_app_inv_head in H. rewrite !str_app_cons, !str_app_nil_l in H.
    injection H as H. apply str_app_inv_tail in H. apply pretty_nat_inj in H. exact H.
Qed.

(** The names tried are pairwise different paths. *)
Lemma candidate_inj : Inj (=) (=) (candidate dest_dir base_name).
Proof.
  intros j k H. unfold candidate in H.
  rewrite (path_join_rel _ (candidate_name base_name j)) in H.
  rewrite (path_join_rel _ (candidate_name base_name k)) in H.
  rewrite !candidate_name_head in H.
  apply candidate_name_inj.
  destruct (startswith base_name "/"); [exact H | apply str_app_inv_head in H; exact H].
Qed.

(** As many files as candidates taken: the loop cannot run for ever. *)
Lemma taken_candidates_bound (fs : gmap string data) (k : nat) :
  (∀ j, (j < k)%nat → is_Some (fs !! candidate dest_dir base_name j)) →
  (k ≤ size fs)%nat.
Proof.
  intros Htaken.
  set (l := candidate dest_dir base_name <$> seq 0 k).
  assert (Hnd : NoDup l).
  { pose proof candidate_inj as Hinj. apply (NoDup_fmap_2 _). apply NoDup_seq. }
  assert (Hsub : list_to_set (C := gset string) l ⊆ dom fs).
  { intros x Hx. apply elem_of_list_to_set in Hx.
    apply list_elem_of_fmap in Hx as (j & -> & Hj).
    apply elem_of_seq in Hj. apply elem_of_dom. apply Htaken. lia. }
  apply subseteq_size in Hsub.
  rewrite size_list_to_set in Hsub by exact Hnd.
  rewrite size_dom in Hsub. unfold l in Hsub.
  rewrite length_fmap, length_seq in Hsub. exact Hsub.
Qed.

(** The loop, entered at the [k]-th candidate with the candidates before
    it taken, stops at the first free one. *)
Lemma free_name_spec (fs : gmap string data) (fuel k : nat) :
  (∀ j, (j < k)%nat → is_Some (fs !! candidate dest_dir base_name j)) →
  (size fs < fuel + k)%nat →
  ∃ k', free_name fuel fs dest_dir (fst (splitext base_name)) (snd (splitext base_name))
          (candidate dest_dir base_name k) (S k)
        = Some (candidate dest_dir base_name k')
      ∧ fs !! candidate dest_dir base_name k' = None
      ∧ ∀ j, (j < k')%nat → is_Some (fs !! candidate dest_dir base_name j).
Proof.
  revert k. induction fuel as [|fuel IH]; intros k Htaken Hfuel.
  - apply taken_candidates_bound in Htaken. lia.
  - cbn [free_name].
    destruct (fs !! candidate dest_dir base_name k) as [d|] eqn:Ek.
    + apply (IH (S k)); [| lia].
      intros j Hj. destruct (decide (j = k)) as [->|Hne].
      * rewrite Ek. eexists; reflexivity.
      * apply Htaken. lia.
    + exists k. split; [reflexivity | split; [exact Ek | exact Htaken]].
Qed.

(** One placement always succeeds, at the first free candidate. *)
Lemma place_in_spec (category src : string) (d : data) (st : fs_state) :
  ∃ k, place_in category dest_dir base_name src d st
       = Some (copy2 category src (candidate dest_dir base_name k) d st)
     ∧ files st !! candidate dest_dir base_name k = None
     ∧ ∀ j, (j < k)%nat → is_Some (files st !! candidate dest_dir base_name j).
Proof.
  destruct (free_name_spec (files st) (S (size (files st))) 0)
    as (k & Hk & Hfree & Htaken); [intros j Hj; lia | lia |].
  exists k. split; [| split; assumption].
  unfold place_in. rewrite (surjective_pairing (splitext base_name)).
  change (path_join dest_dir base_name) with (candidate dest_dir base_name 0).
  rewrite Hk. reflexivity.
Qed.
End Candidates.

Lemma copy2_files_subseteq (category src dst : string) (d : data) (st : fs_state) :
  files st !! dst = None → files st ⊆ files (copy2 category src dst d st).
Proof. intros H. apply insert_subseteq, H. Qed.

(** C3: files placed one after another under the same base name in the
    same directory, whatever is there already.  Every placement succeeds;
    the [i]-th goes to the candidate of index [ks !! i], the first one
    that neither was there before nor was taken by an earlier placement,
    so the indices increase and the paths differ; the files that were
    there and the files placed earlier are kept with their contents.
    When the candidates taken at the start are exactly those below [n],
    the indices are [n], [n+1], ...: from a directory without them ([n =
    0]), the base name itself, then the suffixes [_1], [_2], ... before
    the extension. *)
Theorem place_all_spec (category dest_dir base_name : string)
    (srcs : list (string * data)) (st : fs_state) :
  ∃ ks st',
    place_all category dest_dir base_name srcs st = Some st'
    ∧ length ks = length srcs
    ∧ printed st' = (printed st ++ placements category dest_dir base_name srcs ks)%list
    ∧ StronglySorted lt ks
    ∧ NoDup (candidate dest_dir base_name <$> ks)
    ∧ files st ⊆ files st'
    ∧ (∀ i k s, ks !! i = Some k → srcs !! i = Some s →
         files st !! candidate dest_dir base_name k = None
         ∧ files st' !! candidate dest_dir base_name k = Some (snd s)
         ∧ ∀ j, (j < k)%nat →
             is_Some (files st !! candidate dest_dir base_name j) ∨ j ∈ take i ks)
    ∧ (∀ n, (∀ k, is_Some (files st !! candidate dest_dir base_name k) ↔ (k < n)%nat) →
         ks = seq n (length srcs)).
Proof.
  revert st. induction srcs as [|[src d] srcs IH]; intros st.
  - exists [], st.
    split; [reflexivity |].
    split; [reflexivity |].
    split; [unfold placements; simpl; rewrite app_nil_r; reflexivity |].
    split; [constructor |].
    split; [constructor |].
    split; [reflexivity |].
    split; [intros i k s Hi; discriminate Hi | intros n _; reflexivity].
  - destruct (place_in_spec dest_dir base_name category src d st)
      as (k0 & Hplace & Hfree & Htaken).
    set (st1 := copy2 category src (candidate dest_dir base_name k0) d st) in *.
    destruct (IH st1)
      as (ks & st' & Hall & Hlen & Hprint & Hsorted & Hnodup & Hsub & Hidx & Hseq).
    assert (Hsub1 : files st ⊆ files st1) by (apply copy2_files_subseteq, Hfree).
    assert (Hst1 : ∀ j, is_Some (files st1 !! candidate dest_dir base_name j) ↔
                        j = k0 ∨ is_Some (files st !! candidate dest_dir base_name j)).
    { intros j. unfold st1. cbn [copy2 files]. rewrite lookup_insert.
      destruct (decide (candidate dest_dir base_name k0 = candidate dest_dir base_name j))
        as [Heq|Hne].
      - apply candidate_inj in Heq. subst j. split; [left; reflexivity | eauto].
      - split; [right; assumption | intros [->|H]; [congruence | exact H]]. }
    assert (Hgt : Forall (lt k0) ks).
    { apply Forall_forall. intros k Hk.
      apply list_elem_of_lookup in Hk as [i Hi].
      destruct (lookup_lt_is_Some_2 srcs i) as [s Hs].
      { rewrite <- Hlen. eapply lookup_lt_Some, Hi. }
      destruct (Hidx i k s Hi Hs) as (Hnone & _ & _).
      destruct (Nat.lt_trichotomy k k0) as [Hlt | [-> | Hlt]]; [| | exact Hlt].
      - assert (is_Some (files st1 !! candidate dest_dir base_name k)) as [x Hx]
          by (apply Hst1; right; apply Htaken, Hlt).
        congruence.
      - assert (is_Some (files st1 !! candidate dest_dir base_name k0)) as [x Hx]
          by (apply Hst1; left; reflexivity).
        congruence. }
    exists (k0 :: ks), st'.
    split; [| split; [| split; [| split; [| split; [| split; [| split]]]]]].
    + unfold place_all in *. cbn [for_each]. rewrite Hplace. cbn. exact Hall.
    + simpl. rewrite Hlen. reflexivity.
    + rewrite Hprint. unfold st1, placements. cbn [copy2 printed zip_with fst].
      rewrite <- app_assoc. reflexivity.
    + constructor; assumption.
    + rewrite fmap_cons. apply NoDup_cons. split; [| exact Hnodup].
      intros Hin. apply list_elem_of_fmap in Hin as (k & Heq & Hk).
      apply candidate_inj in Heq. subst k.
      rewrite Forall_forall in Hgt. specialize (Hgt k0 Hk). lia.
    + etrans; eassumption.
    + intros i k s Hi Hs. destruct i as [|i].
      * injection Hi as <-. injection Hs as <-. split; [exact Hfree | split].
        -- eapply lookup_weaken; [| exact Hsub]. unfold st1. cbn [copy2 files].
           apply lookup_insert_eq.
        -- intros j Hj. left. apply Htaken, Hj.
      * cbn in Hi, Hs. destruct (Hidx i k s Hi Hs) as (Hnone & Hsome & Hbelow).
        split; [| split; [exact Hsome |]].
        -- destruct (files st !! candidate dest_dir base_name k) as [x|] eqn:E;
             [| reflexivity].
           pose proof (lookup_weaken _ _ _ _ E Hsub1) as E1. congruence.
        -- intros j Hj. destruct (Hbelow j Hj) as [Hs1 | Hin].
           ++ apply Hst1 in Hs1 as [-> | Hs0]; [right; cbn; left | left; exact Hs0].
           ++ right. cbn. right. exact Hin.
    + intros n Hn.
      assert (k0 = n) as ->.
      { destruct (Nat.lt_trichotomy k0 n) as [Hlt | [-> | Hlt]]; [| reflexivity |].
        - apply Hn in Hlt as [x Hx]. congruence.
        - assert (n < n)%nat; [| lia]. apply Hn, Htaken, Hlt. }
      cbn [length seq]. f_equal. apply Hseq.
      intros k. rewrite Hst1, Hn. lia.
Qed.

Lemma place_all_spec_witness :
  ∃ st', place_all "auth_and_users" "out/auth_and_users/original"
           "web01__auth_and_users__root__passwd.bak"
           [("in/web01/root/a/passwd.bak", [Byte.x61]);
            ("in/web01/root/b/passwd.bak", [Byte.x62]);
            ("in/web01/root/c/passwd.bak", [Byte.x63])]
           empty_fs = Some st'
    ∧ pl_dst <$> printed st' =
        [ "out/auth_and_users/original/web01__auth_and_users__root__passwd.bak";
          "out/auth_and_users/original/web01__auth_and_users__root__passwd_1.bak";
          "out/auth_and_users/original/web01__auth_and_users__root__passwd_2.bak" ].
Proof.
  destruct (place_all_spec "auth_and_users" "out/auth_and_users/original"
              "web01__auth_and_users__root__passwd.bak"
              [("in/web01/root/a/passwd.bak", [Byte.x61]);
               ("in/web01/root/b/passwd.bak", [Byte.x62]);
               ("in/web01/root/c/passwd.bak", [Byte.x63])]
              empty_fs) as (ks & st' & Hrun & _ & Hprint & _ & _ & _ & _ & Hseq).
  exists st'. split; [exact Hrun |].
  rewrite Hprint, (Hseq 0%nat).
  - reflexivity.
  - intros k. cbn. rewrite lookup_empty. split; [intros [x Hx]; discriminate Hx | lia].
Defined.

(** ** Classification *)

Lemma head_matching (cats : list (string * list string)) (file : string) :
  head (matching_categories cats file) = spec_classify cats file.
Proof.
  unfold matching_categories, spec_classify.
  induction cats as [|c cats IH]; [reflexivity|].
  rewrite filter_cons. cbn [find].
  destruct (selects file c) eqn:E.
  - rewrite decide_True by reflexivity. reflexivity.
  - rewrite decide_False by discriminate. exact IH.
Qed.

Lemma matching_categories_cons (c : string * list string)
    (cats : list (string * list string)) (file : string) :
  matching_categories (c :: cats) file =
    if selects file c then fst c :: matching_categories cats file
    else matching_categories cats file.
Proof.
  unfold matching_categories. rewrite filter_cons.
  destruct (selects file c).
  - rewrite decide_True by reflexivity. reflexivity.
  - rewrite decide_False by discriminate. reflexivity.
Qed.

(** The loop over any table: one copy per category that selects the file,
    in table order, each to a path that was free. *)
Lemma classify_loop_spec (cats : list (string * list string))
    (output_path system_name username full_path file : string) (d : data) (st : fs_state) :
  ∃ st' new,
    classify_loop cats output_path system_name username full_path file (lower file) d st
      = Some st'
    ∧ printed st' = (printed st ++ new)%list
    ∧ pl_category <$> new = matching_categories cats file
    ∧ Forall (λ p, pl_src p = full_path ∧ files st !! pl_dst p = None
                   ∧ files st' !! pl_dst p = Some d) new
    ∧ files st ⊆ files st'
    ∧ (matching_categories cats file = [] → st' = st).
Proof.
  revert st. induction cats as [|[category keywords] cats IH]; intros st.
  - exists st, []. split; [reflexivity |]. split; [symmetry; apply app_nil_r |].
    split; [reflexivity |]. split; [constructor |]. split; [reflexivity | reflexivity].
  - rewrite matching_categories_cons. unfold selects. cbn [fst snd].
    unfold classify_loop in *. cbn [for_each].
    destruct (String.eqb category "hashes") eqn:Eh; cbn [negb andb].
    { cbn. apply IH. }
    destruct (matches keywords (lower file)) eqn:Em.
    + unfold place.
      set (dest_dir := path_join (path_join output_path category) "original").
      set (base_name :=
             system_name +:+ "__" +:+ category +:+ "__" +:+ username +:+ "__" +:+ file).
      destruct (place_in_spec dest_dir base_name category full_path d st)
        as (k & -> & Hfree & _).
      cbn.
      set (st1 := copy2 category full_path (candidate dest_dir base_name k) d st).
      destruct (IH st1) as (st' & new & Hrun & Hprint & Hcats & Hnew & Hsub & _).
      assert (Hsub1 : files st ⊆ files st1) by (apply copy2_files_subseteq, Hfree).
      exists st', ({| pl_category := category; pl_src := full_path;
                      pl_dst := candidate dest_dir base_name k |} :: new).
      split; [exact Hrun |]. split.
      { rewrite Hprint. unfold st1. cbn [copy2 printed]. rewrite <- app_assoc. reflexivity. }
      split; [rewrite fmap_cons, Hcats; reflexivity |]. split.
      { constructor.
        - cbn [pl_src pl_dst]. split; [reflexivity | split; [exact Hfree |]].
          eapply lookup_weaken; [| exact Hsub]. unfold st1. cbn [copy2 files].
          apply lookup_insert_eq.
        - eapply Forall_impl; [exact Hnew |]. cbv beta. intros p (Hsrc & Hnone & Hsome).
          split; [exact Hsrc | split; [| exact Hsome]].
          destruct (files st !! pl_dst p) as [x|] eqn:E; [| reflexivity].
          pose proof (lookup_weaken _ _ _ _ E Hsub1) as E1.
          rewrite Hnone in E1. discriminate E1. }
      split; [etrans; eassumption | discriminate].
    + cbn. apply IH.
Qed.

Lemma for_each_is_Some {A S : Type} (body : A → S → option S) (xs : list A) (s : S) :
  (∀ x s, is_Some (body x s)) → is_Some (for_each body xs s).
Proof.
  intros Hbody. revert s. induction xs as [|x xs IH]; intros s; [eexists; reflexivity|].
  cbn [for_each]. destruct (Hbody x s) as [s' ->]. cbn. apply IH.
Qed.

(** The collection always runs to its end: no loop of the model is cut
    short by its bound. *)
Lemma collect_files_total (input : list (string * node)) (input_path output_path : string)
    (st : fs_state) :
  is_Some (collect_files input input_path output_path st).
Proof.
  unfold collect_files. apply for_each_is_Some. intros [system_name n] s.
  destruct n as [|entries]; [eexists; reflexivity|].
  destruct (startswith system_name "_"); [eexists; reflexivity|].
  unfold collect_users. apply for_each_is_Some. intros [subdir m] s'.
  destruct m as [|sub]; [eexists; reflexivity|].
  destruct (bool_decide (subdir ∈ SKIP_FOLDERS)); [eexists; reflexivity|].
  apply for_each_is_Some. intros [[root file] d] s''.
  destruct (classify_loop_spec CATEGORIES output_path system_name subdir
              (path_join root file) file d s'') as (st' & new & Hrun & _).
  exists st'. exact Hrun.
Qed.

(** C1, as the code has it: a walked file is copied once into every
    category of the table, the sentinel apart, one of whose keywords occurs
    in the lower-cased file name, in table order; the first copy goes to the
    category the specification names, and a file that no category selects
    is not copied at all. *)
Theorem classify_and_place_spec (output_path system_name username full_path file : string)
    (d : data) (st : fs_state) :
  ∃ st' new,
    classify_and_place output_path system_name username full_path file d st = Some st'
    ∧ printed st' = (printed st ++ new)%list
    ∧ pl_category <$> new = matching_categories CATEGORIES file
    ∧ head (pl_category <$> new) = spec_classify CATEGORIES file
    ∧ Forall (λ p, pl_src p = full_path ∧ files st !! pl_dst p = None
                   ∧ files st' !! pl_dst p = Some d) new
    ∧ (spec_classify CATEGORIES file = None → st' = st).
Proof.
  destruct (classify_loop_spec CATEGORIES output_path system_name username full_path file d st)
    as (st' & new & Hrun & Hprint & Hcats & Hnew & _ & Hnone).
  exists st', new. split; [exact Hrun |]. split; [exact Hprint |]. split; [exact Hcats |].
  split; [rewrite Hcats; apply head_matching |]. split; [exact Hnew |].
  intros Hspec. apply Hnone. rewrite <- head_matching in Hspec.
  destruct (matching_categories CATEGORIES file); [reflexivity | discriminate Hspec].
Qed.

Lemma classify_and_place_spec_witness :
  classify_and_place "out" "web01" "root" "in/web01/root/notes.txt" "notes.txt"
    [Byte.x61] empty_fs = Some empty_fs.
Proof.
  destruct (classify_and_place_spec "out" "web01" "root" "in/web01/root/notes.txt"
              "notes.txt" [Byte.x61] empty_fs) as (st' & new & Hrun & _ & _ & _ & _ & Hnone).
  rewrite Hrun. f_equal. apply Hnone. reflexivity.
Defined.

(** C1 as stated fails on "cron.tmp": the first category that selects it
    is [cron_persistence], and it is copied to [temp_suspicious] as well. *)
Lemma classify_two_categories :
  spec_classify CATEGORIES "cron.tmp" = Some "cron_persistence"
  ∧ ∃ st', classify_and_place "out" "web01" "root" "in/web01/root/cron.tmp" "cron.tmp"
             [Byte.x61] empty_fs = Some st'
       ∧ pl_category <$> printed st' = ["cron_persistence"; "temp_suspicious"]
       ∧ files st' !! "out/cron_persistence/original/web01__cron_persistence__root__cron.tmp"
           = Some [Byte.x61]
       ∧ files st' !! "out/temp_suspicious/original/web01__temp_suspicious__root__cron.tmp"
           = Some [Byte.x61].
Proof.
  split; [reflexivity |]. eexists. split; [vm_compute; reflexivity |].
  repeat split; vm_compute; reflexivity.
Qed.

(** ** The hash category *)

(** C2 on the code: the copy into [hashes/original] does not test the
    destination.  Two systems can name the same destination, and the second
    copy replaces the first; a file left by an earlier run is replaced too,
    where the keyword path next to it takes the suffix [_1]. *)
Theorem hash_copy_overwrites :
  (∃ st', collect_files two_hosts "in" "out" empty_fs = Some st'
     ∧ printed st' =
         [ {| pl_category := "hashes";
              pl_src := "in/web01/hash_executables/backup__hash_executables.md5";
              pl_dst := "out/hashes/original/web01__backup__hash_executables.md5" |};
           {| pl_category := "hashes";
              pl_src := "in/web01__backup/hash_executables/hash_executables.md5";
              pl_dst := "out/hashes/original/web01__backup__hash_executables.md5" |} ]
     ∧ files st' =
         {[ "out/hashes/original/web01__backup__hash_executables.md5" := [Byte.x32] ]})
  ∧ (∃ st', collect_files one_host "in" "out" stale_fs = Some st'
     ∧ files stale_fs !! "out/hashes/original/web01__hash_executables.md5"
         = Some [Byte.x31]
     ∧ files st' !! "out/hashes/original/web01__hash_executables.md5" = Some [Byte.x32]
     ∧ files st' !! "out/auth_and_users/original/web01__auth_and_users__root__passwd"
         = Some [Byte.x33]
     ∧ files st' !! "out/auth_and_users/original/web01__auth_and_users__root__passwd_1"
         = Some [Byte.x34]).
Proof.
  split.
  - eexists. split; [vm_compute; reflexivity |]. split; vm_compute; reflexivity.
  - eexists. split; [vm_compute; reflexivity |]. repeat split; vm_compute; reflexivity.
Qed.

(** * Further properties of the code *)

Lemma lstrip_head (s : string) :
  lstrip s = "" ∨ ∃ c r, lstrip s = String c r ∧ isspace c = false.
Proof.
  induction s as [|c s IH]; [left; reflexivity|].
  cbn [lstrip]. destruct (isspace c) eqn:E; [exact IH | right; eauto].
Qed.

Lemma last_char_cons (c : ascii) (s : string) :
  s ≠ "" → last_char (String c s) = last_char s.
Proof.
  destruct s as [|d s]; [congruence|]. intros _. unfold last_char.
  cbn [String.length]. rewrite !Nat.sub_succ, !Nat.sub_0_r. reflexivity.
Qed.

Lemma rstrip_spec (s : string) :
  (rstrip s = "" ∨ ∃ c, last_char (rstrip s) = Some c ∧ isspace c = false)
  ∧ (∀ c r, s = String c r → isspace c = false → first_char (rstrip s) = Some c).
Proof.
  induction s as [|c s [IH _]].
  - split; [left; reflexivity | intros c r H; discriminate H].
  - cbn [rstrip]. destruct (rstrip s) as [|d r] eqn:E.
    + destruct (isspace c) eqn:Ec.
      * split; [left; reflexivity | intros c' r' [= <- <-] H; congruence].
      * split; [right; exists c; split; [reflexivity | exact Ec]
               | intros c' r' [= <- <-] _; reflexivity].
    + split.
      * right. destruct IH as [IH | IH]; [discriminate IH|].
        rewrite last_char_cons by discriminate. exact IH.
      * intros c' r' [= <- <-] _. reflexivity.
Qed.

Lemma strip_trimmed (s : string) : strip s = "" ∨ trimmed (strip s).
Proof.
  unfold strip.
  destruct (lstrip_head s) as [-> | (c & r & Hl & Hc)]; [left; reflexivity|].
  rewrite Hl. destruct (rstrip_spec (String c r)) as [Hlast Hfirst].
  specialize (Hfirst c r eq_refl Hc).
  destruct Hlast as [Hnil | Hlast].
  - rewrite Hnil in Hfirst. discriminate Hfirst.
  - right. split; [exists c; split; assumption | exact Hlast].
Qed.

Lemma lstrip_split (s : string) : ∃ pre, s = pre +:+ lstrip s ∧ is_blank pre = true.
Proof.
  induction s as [|c s (pre & Hs & Hpre)]; [exists ""; split; reflexivity|].
  cbn [lstrip]. destruct (isspace c) eqn:E.
  - exists (String c pre). rewrite str_app_cons, <- Hs. split; [reflexivity|].
    cbn [is_blank]. rewrite E, Hpre. reflexivity.
  - exists "". split; reflexivity.
Qed.

Lemma rstrip_split (s : string) : ∃ post, s = rstrip s +:+ post ∧ is_blank post = true.
Proof.
  induction s as [|c s (post & Hs & Hpost)]; [exists ""; split; reflexivity|].
  cbn [rstrip]. destruct (rstrip s) as [|d r] eqn:E.
  - rewrite str_app_nil_l in Hs. subst post. destruct (isspace c) eqn:Ec.
    + exists (String c s). split; [reflexivity|]. cbn [is_blank]. rewrite Ec, Hpost. reflexivity.
    + exists s. split; [reflexivity | exact Hpost].
  - exists post. rewrite str_app_cons, <- Hs. split; [reflexivity | exact Hpost].
Qed.

Lemma strip_split (s : string) :
  ∃ pre post, s = pre +:+ strip s +:+ post ∧ is_blank pre = true ∧ is_blank post = true.
Proof.
  destruct (lstrip_split s) as (pre & Hs & Hpre).
  destruct (rstrip_split (lstrip s)) as (post & Hl & Hpost).
  exists pre, post. unfold strip. rewrite <- Hl, <- Hs. auto.
Qed.

Lemma log_records_map (hostname original : string) (f : list string) :
  log_records hostname original f =
    map (λ l, LogLine hostname (basename original) (strip l))
        (filter (λ l, strip l ≠ "") f).
Proof.
  unfold log_records. induction f as [|l f IH]; [reflexivity|].
  cbn [omap list_omap]. rewrite filter_cons.
  destruct (String.eqb_spec (strip l) "") as [E|E].
  - rewrite decide_False by (intros H; apply H, E). exact IH.
  - rewrite decide_True by exact E. cbn [map]. f_equal. exact IH.
Qed.

(** X1: [parse_log] makes one record per line that is not blank, in file
    order; the recorded text is the line without the white space at its
    two ends, so it is never empty and neither starts nor ends with white
    space. *)
Theorem log_records_trimmed (hostname original : string) (f : list string) :
  log_records hostname original f =
    map (λ l, LogLine hostname (basename original) (strip l))
        (filter (λ l, strip l ≠ "") f)
  ∧ Forall (λ r, ∃ l, r = LogLine hostname (basename original) l ∧ trimmed l)
      (log_records hostname original f)
  ∧ (∀ l, ∃ pre post, l = pre +:+ strip l +:+ post
                      ∧ is_blank pre = true ∧ is_blank post = true).
Proof.
  split; [apply log_records_map | split; [| apply strip_split]].
  rewrite log_records_map. apply Forall_forall. intros r Hr.
  apply list_elem_of_In, in_map_iff in Hr as (l & <- & Hl).
  apply list_elem_of_In, list_elem_of_filter in Hl as [Hne _].
  exists (strip l). split; [reflexivity|].
  destruct (strip_trimmed l) as [H | H]; [congruence | exact H].
Qed.

Lemma parsed_count_emit (outfile hostname h : string) (records : list record)
    (st : run_state) :
  parsed_count h (emit outfile hostname records st) =
    if decide (h = hostname) then S (parsed_count h st) else parsed_count h st.
Proof.
  unfold parsed_count, emit, bump. cbn [summary_data].
  case_decide as Hh.
  - subst h. rewrite lookup_insert_eq. cbn. rewrite lookup_insert_eq. cbn.
    destruct (summary_data st !! hostname) as [inner|]; cbn; [reflexivity|].
    rewrite lookup_empty. reflexivity.
  - rewrite lookup_insert_ne by congruence. reflexivity.
Qed.

Lemma structured_key_cases (category k : string) :
  k ∈ keywords_of category →
  existsb (String.eqb k) ["passwd"; "shadow"; "group"; "sudoers"] = true →
  category = "auth_and_users" ∧ (k = "passwd" ∨ k = "shadow" ∨ k = "group").
Proof.
  unfold keywords_of, CATEGORIES. cbn [find fst snd].
  repeat match goal with
         | |- context [String.eqb ?a category] =>
             destruct (String.eqb_spec a category) as [<-|?]
         end; cbn [fst snd]; intros Hk He;
    repeat (apply elem_of_cons in Hk as [-> | Hk]);
    try (apply elem_of_nil in Hk; destruct Hk);
    try discriminate He; split; auto.
Qed.

Lemma find_elem_of {A : Type} (f : A → bool) (l : list A) (x : A) :
  find f l = Some x → x ∈ l ∧ f x = true.
Proof.
  intros H. apply find_some in H as [Hin Hf]. split; [apply list_elem_of_In, Hin | exact Hf].
Qed.

Lemma structured_line_hostname (kind hostname line : string) (r : record) :
  structured_line kind hostname line = Some r → record_hostname r = hostname.
Proof.
  unfold structured_line.
  repeat match goal with
         | |- context [if ?b then _ else _] => destruct b
         end; intros [= <-]; reflexivity.
Qed.

Lemma structured_line_not_sudoers (kind hostname line : string) (r : record) :
  startswith kind "sudoers" = false →
  structured_line kind hostname line = Some r → is_sudoers r = false.
Proof.
  unfold structured_line. intros ->.
  repeat match goal with
         | |- context [if ?b then _ else _] => destruct b
         end; intros [= <-]; reflexivity.
Qed.

Lemma omap_Forall {A B : Type} (f : A → option B) (P : B → Prop) (l : list A) :
  (∀ x y, f x = Some y → P y) → Forall P (omap f l).
Proof.
  intros H. induction l as [|x l IH]; [constructor|].
  cbn [omap list_omap]. destruct (f x) as [y|] eqn:E; [constructor; eauto | exact IH].
Qed.

(** One step of the parse phase is no step or one [emit]. *)
Lemma parse_file_cases (output_path category file : string) (v : file_view)
    (st : run_state) :
  parse_file output_path category file v st = st
  ∨ ∃ records,
      records ≠ []
      ∧ parse_file output_path category file v st
        = emit (path_join (path_join (path_join output_path category) "parsed")
                  (json_name file))
            (extract_hostname file) records st
      ∧ Forall (λ r, record_hostname r = extract_hostname file) records
      ∧ Forall (λ r, is_sudoers r = false) records
      ∧ (category ≠ "auth_and_users" → Forall (λ r, is_log_line r = true) records).
Proof.
  unfold parse_file.
  set (dst := path_join (path_join (path_join output_path category) "parsed")
                (json_name file)).
  destruct (is_text_file (fv_bytes v) default_threshold); cbn [negb]; [| left; reflexivity].
  set (hostname := extract_hostname file).
  assert (Hlog : ∀ src,
    parse_log (fv_lines v) dst hostname src st = st
    ∨ ∃ records, records ≠ []
        ∧ parse_log (fv_lines v) dst hostname src st = emit dst hostname records st
        ∧ Forall (λ r, record_hostname r = hostname) records
        ∧ Forall (λ r, is_sudoers r = false) records
        ∧ (category ≠ "auth_and_users" → Forall (λ r, is_log_line r = true) records)).
  { intros src. unfold parse_log. destruct (fv_lines v) as [f|]; [| left; reflexivity].
    destruct (log_records hostname src f) as [|r rs] eqn:E; [left; reflexivity|].
    right. exists (r :: rs). split; [discriminate|]. split; [reflexivity|].
    rewrite <- E. unfold log_records.
    split; [| split; [| intros _]]; apply omap_Forall; intros x y;
      destruct (String.eqb (strip x) ""); intros [= <-]; reflexivity. }
  destruct (find (λ k, contains k file) (keywords_of category)) as [k|] eqn:Ek.
  - destruct (existsb (String.eqb k) ["passwd"; "shadow"; "group"; "sudoers"]) eqn:Es.
    + apply find_elem_of in Ek as [Hin _].
      destruct (structured_key_cases category k Hin Es) as [Hcat Hk].
      destruct (fv_lines v) as [f|]; [| left; reflexivity].
      rewrite parse_structured_config_records.
      destruct (structured_records k hostname f) as [|r rs] eqn:E; [left; reflexivity|].
      right. exists (r :: rs). split; [discriminate|]. split; [reflexivity|].
      rewrite <- E. unfold structured_records.
      split; [| split; [| intros Hne; congruence]]; apply omap_Forall; intros x y.
      * apply structured_line_hostname.
      * apply structured_line_not_sudoers.
        destruct Hk as [-> | [-> | ->]]; reflexivity.
    + destruct (matches _ (lower file)); [apply Hlog | left; reflexivity].
  - destruct (matches _ (lower file)); [apply Hlog | left; reflexivity].
Qed.



(** X3: one step of the parse phase either changes nothing or writes one
    JSON file, named after the original, that holds the records it appends;
    the records carry [extract_hostname file], only that host is counted,
    no record is a sudoers rule, and outside [auth_and_users] every record
    is a log line. *)
Theorem parse_file_effect (output_path category file : string) (v : file_view)
    (st : run_state) :
  let st' := parse_file output_path category file v st in
  st' = st
  ∨ ∃ records,
      records ≠ []
      ∧ json_files st' =
          <[path_join (path_join (path_join output_path category) "parsed") (json_name file)
              := records]> (json_files st)
      ∧ all_parsed st' = (all_parsed st ++ records)%list
      ∧ (∀ h, parsed_count h st' =
              if decide (h = extract_hostname file) then S (parsed_count h st)
              else parsed_count h st)
      ∧ Forall (λ r, record_hostname r = extract_hostname file) records
      ∧ Forall (λ r, is_sudoers r = false) records
      ∧ (category ≠ "auth_and_users" → Forall (λ r, is_log_line r = true) records).
Proof.
  intros st'. unfold st'.
  destruct (parse_file_cases output_path category file v st)
    as [-> | (records & Hne & -> & Hhost & Hsud & Hlog)]; [left; reflexivity|].
  right. exists records. split; [exact Hne|].
  split; [reflexivity|]. split; [reflexivity|].
  split; [intros h; apply parsed_count_emit|].
  split; [exact Hhost | split; [exact Hsud | exact Hlog]].
Qed.

Lemma grows_refl (Q : record → Prop) (st : run_state) : grows Q st st.
Proof.
  split; [exists []; split; [symmetry; apply app_nil_r | constructor]|].
  split; [reflexivity | intros h; lia].
Qed.

Lemma grows_trans (Q : record → Prop) (st1 st2 st3 : run_state) :
  grows Q st1 st2 → grows Q st2 st3 → grows Q st1 st3.
Proof.
  intros ((n1 & H1 & Q1) & D1 & C1) ((n2 & H2 & Q2) & D2 & C2).
  split; [exists (n1 ++ n2)%list; split|split].
  - rewrite H2, H1, app_assoc. reflexivity.
  - apply Forall_app; split; assumption.
  - etrans; eassumption.
  - intros h. specialize (C1 h). specialize (C2 h). lia.
Qed.

Lemma foldl_grows {A : Type} (Q : record → Prop) (P : A → Prop)
    (step : run_state → A → run_state) (l : list A) (st : run_state) :
  (∀ st x, P x → grows Q st (step st x)) →
  Forall P l →
  grows Q st (foldl step st l).
Proof.
  intros Hstep Hl. revert st. induction Hl as [|x l Hx Hl IH]; intros st; [apply grows_refl|].
  cbn [foldl]. eapply grows_trans; [apply Hstep, Hx | apply IH].
Qed.

(** X4: the parse phase only adds: the accumulator keeps what it had as a
    prefix, no JSON file disappears, no counter goes down; every new record
    carries the hostname of a listed original and none is a sudoers rule
    ("sudoers" is no keyword of the table, so that branch is never taken). *)
Theorem parse_all_logs_grows (output_path : string)
    (listdir : string → list (string * file_view)) (st : run_state) :
  let st' := parse_all_logs output_path listdir st in
  (∃ new, all_parsed st' = (all_parsed st ++ new)%list
     ∧ Forall (λ r, is_sudoers r = false
                    ∧ ∃ category file v, (file, v) ∈ listdir category
                        ∧ record_hostname r = extract_hostname file) new)
  ∧ dom (json_files st) ⊆ dom (json_files st')
  ∧ ∀ h, (parsed_count h st ≤ parsed_count h st')%nat.
Proof.
  unfold parse_all_logs.
  apply (foldl_grows _ (λ _, True)); [| apply Forall_true; trivial].
  intros st1 [category keywords] _. cbn [fst].
  apply (foldl_grows _ (λ e, e ∈ listdir category)); [| apply Forall_forall; trivial].
  intros st2 [file v] Hin. cbn [fst snd].
  destruct (parse_file_cases output_path category file v st2)
    as [-> | (records & _ & -> & Hhost & Hsud & _)]; [apply grows_refl|].
  split; [exists records; split; [reflexivity|]|split].
  - apply Forall_forall. intros r Hr. rewrite Forall_forall in Hhost, Hsud.
    split; [apply Hsud, Hr | exists category, file, v; split; [exact Hin | apply Hhost, Hr]].
  - cbn [emit json_files]. rewrite dom_insert_L. apply union_subseteq_r.
  - intros h. rewrite parsed_count_emit. case_decide; lia.
Qed.

Lemma count_digits_app_le (a x : string) :
  (count_digits a ≤ count_digits (a +:+ x))%nat.
Proof.
  induction a as [|c a IH]; [simpl; lia|].
  rewrite str_app_cons. cbn [count_digits]. destruct (is_digit c); lia.
Qed.

Lemma str_drop_app (n : nat) (a x : string) :
  (n ≤ String.length a)%nat → str_drop n (a +:+ x) = str_drop n a +:+ x.
Proof.
  revert a. induction n as [|n IH]; intros a Hn; [destruct a; reflexivity|].
  destruct a as [|c a]; [simpl in Hn; lia|].
  rewrite str_app_cons. cbn [str_drop]. apply IH. simpl in Hn. lia.
Qed.

(** A timestamp at the start of a string is still one when the string is
    extended. *)
Lemma timestamp_here_app (a x : string) :
  timestamp_here a = true → timestamp_here (a +:+ x) = true.
Proof.
  unfold timestamp_here. rewrite !andb_true_iff, !Nat.leb_le, !prefix_app.
  intros [[b ->] Hn]. split; [exists (b +:+ x); rewrite str_app_assoc; reflexivity|].
  rewrite str_app_assoc.
  change (str_drop 3 ("-20" +:+ b)) with b in Hn.
  change (str_drop 3 ("-20" +:+ b +:+ x)) with (b +:+ x).
  pose proof (count_digits_app_le b x). lia.
Qed.

Lemma match_group1_prefix (s g : string) :
  match_group1 s = Some g →
  g ≠ "" ∧ ∃ rest, s = g +:+ rest ∧ timestamp_here rest = true ∧ match_group1 g = None.
Proof.
  revert g. induction s as [|c s IH]; intros g H; [discriminate H|].
  cbn [match_group1] in H. destruct (Ascii.eqb c LF) eqn:Ec; [discriminate H|].
  destruct (timestamp_here s) eqn:Et.
  - injection H as <-. split; [discriminate|]. exists s.
    split; [reflexivity | split; [exact Et|]].
    cbn [match_group1]. rewrite Ec. reflexivity.
  - destruct (match_group1 s) as [g'|] eqn:Eg; [| discriminate H].
    injection H as <-. destruct (IH g' eq_refl) as (Hne & rest & Hs & Hts & Hnone).
    split; [discriminate|]. exists rest. split; [rewrite str_app_cons, <- Hs; reflexivity|].
    split; [exact Hts|].
    cbn [match_group1]. rewrite Ec, Hnone.
    destruct (timestamp_here g') eqn:Eg'; [| reflexivity].
    apply (timestamp_here_app g' rest) in Eg'. rewrite <- Hs in Eg'. congruence.
Qed.

(** X5: the hostname is a prefix of the name, followed by nothing or by a
    timestamp; it is not empty unless the name is; extracting again changes
    nothing. *)
Theorem extract_hostname_prefix (name : string) :
  (∃ rest, name = extract_hostname name +:+ rest
           ∧ (rest = "" ∨ timestamp_here rest = true))
  ∧ (name ≠ "" → extract_hostname name ≠ "")
  ∧ extract_hostname (extract_hostname name) = extract_hostname name.
Proof.
  unfold extract_hostname. destruct (match_group1 name) as [g|] eqn:E.
  - destruct (match_group1_prefix name g E) as (Hne & rest & Hs & Hts & Hnone).
    split; [exists rest; split; [exact Hs | right; exact Hts]|].
    split; [intros _; exact Hne | rewrite Hnone; reflexivity].
  - split; [exists ""; split; [symmetry; apply str_app_nil_r | left; reflexivity]|].
    split; [trivial | rewrite E; reflexivity].
Qed.

Lemma extract_hostname_prefix_witness : extract_hostname "uac-db02-20240115093000" ≠ "".
Proof.
  apply (proj1 (proj2 (extract_hostname_prefix "uac-db02-20240115093000"))). discriminate.
Defined.

Lemma lower_app (a b : string) : lower (a +:+ b) = lower a +:+ lower b.
Proof.
  induction a as [|c a IH]; [reflexivity|].
  rewrite str_app_cons. cbn [lower]. rewrite str_app_cons, IH. reflexivity.
Qed.

(** X6: the file name tested in the parse phase is the name of the
    collected original, which contains the category: in
    [system_and_auth_logs] the name always contains "log", so every text
    original is parsed line by line, whatever the artifact was called. *)
Theorem system_logs_always_parsed (output_path system_name username file : string)
    (v : file_view) (st : run_state) :
  let name := system_name +:+ "__system_and_auth_logs__" +:+ username +:+ "__" +:+ file in
  let dir := path_join output_path "system_and_auth_logs" in
  is_text_file (fv_bytes v) default_threshold = true →
  parse_file output_path "system_and_auth_logs" name v st =
    parse_log (fv_lines v) (path_join (path_join dir "parsed") (json_name name))
      (extract_hostname name) (path_join (path_join dir "original") name) st.
Proof.
  intros name dir Htext. unfold parse_file. fold dir. rewrite Htext. cbn [negb].
  assert (Hlog : matches ["log"; "history"; "authorized_keys"; "hash"] (lower name) = true).
  { unfold matches. cbn [existsb]. apply orb_true_iff. left.
    apply contains_spec. unfold name. rewrite !lower_app.
    exists (lower system_name +:+ "__system_and_auth_"), ("s__" +:+ lower username +:+ lower "__" +:+ lower file).
    rewrite !str_app_assoc. reflexivity. }
  rewrite Hlog.
  destruct (find (λ k, contains k name) (keywords_of "system_and_auth_logs")) as [k|] eqn:Ek;
    [| reflexivity].
  apply find_elem_of in Ek as [Hin _].
  change (keywords_of "system_and_auth_logs")
    with ["syslog"; "auth.log"; "secure"; "messages"; "dmesg"] in Hin.
  repeat (apply elem_of_cons in Hin as [-> | Hin]); try reflexivity.
  apply elem_of_nil in Hin. destruct Hin.
Qed.

Lemma system_logs_always_parsed_witness :
  all_parsed (parse_file "out" "system_and_auth_logs"
                ("web01-20230401120000" +:+ "__system_and_auth_logs__" +:+ "root" +:+ "__"
                 +:+ "dmesg")
                {| fv_bytes := Some [Byte.x61]; fv_lines := Some ["usb 1-1: new device"] |}
                empty_run)
  = [LogLine "web01"
       "web01-20230401120000__system_and_auth_logs__root__dmesg" "usb 1-1: new device"].
Proof.
  rewrite (system_logs_always_parsed "out" "web01-20230401120000" "root" "dmesg"
             {| fv_bytes := Some [Byte.x61]; fv_lines := Some ["usb 1-1: new device"] |}
             empty_run); reflexivity.
Defined.

Lemma str_split_cons (sep : ascii) (s : string) :
  ∃ p ps, str_split sep s = p :: ps.
Proof.
  destruct s as [|c s]; [eexists _, _; reflexivity|].
  cbn [str_split]. destruct (Ascii.eqb c sep); [eexists _, _; reflexivity|].
  destruct (str_split sep s); eexists _, _; reflexivity.
Qed.

Lemma str_split_join (sep : ascii) (s : string) :
  str_join (String sep "") (str_split sep s) = s
  ∧ Forall (λ p, has_char sep p = false) (str_split sep s).
Proof.
  induction s as [|c s [IHj IHf]]; [split; [reflexivity | repeat constructor]|].
  cbn [str_split]. destruct (Ascii.eqb_spec c sep) as [->|Hne].
  - destruct (str_split_cons sep s) as (p & ps & E). rewrite E in *.
    split; [| constructor; [reflexivity | exact IHf]].
    cbn [str_join]. cbn [str_join] in IHj. rewrite str_app_nil_l, str_app_cons, str_app_nil_l.
    f_equal. exact IHj.
  - destruct (str_split_cons sep s) as (p & ps & E). rewrite E in *.
    inversion IHf as [|? ? Hp Hps]; subst.
    split.
    + destruct ps as [|q ps]; cbn [str_join] in *; [f_equal; exact IHj|].
      rewrite str_app_cons. f_equal; exact IHj.
    + constructor; [| exact Hps]. cbn [has_char]. rewrite Hp, orb_false_r.
      apply Ascii.eqb_neq, Hne.
Qed.

(** X7: a passwd record gives the line back: the line is the fields
    joined with colons (the password field and any fields after the
    seventh are not recorded), and no recorded field contains a colon. *)
Theorem passwd_record_round_trip (kind hostname line : string)
    (h user uid gid desc home shell : string) :
  startswith kind "passwd" = true →
  structured_line kind hostname line = Some (Passwd h user uid gid desc home shell) →
  h = hostname
  ∧ (∃ pw extra,
       line = str_join ":" (user :: pw :: uid :: gid :: desc :: home :: shell :: extra))
  ∧ Forall (λ p, has_char ":" p = false) [user; uid; gid; desc; home; shell].
Proof.
  intros Hk. unfold structured_line. rewrite Hk. cbn [andb].
  destruct (str_split_join ":" line) as [Hjoin Hparts].
  destruct (7 <=? length (str_split ":" line))%nat eqn:Hlen.
  - destruct (str_split ":" line) as [|f0 [|f1 [|f2 [|f3 [|f4 [|f5 [|f6 extra]]]]]]];
      try discriminate Hlen.
    unfold field. cbn [nth]. intros [= <- <- <- <- <- <- <-].
    split; [reflexivity|]. split; [exists f1, extra; symmetry; exact Hjoin|].
    repeat match goal with H : Forall _ (_ :: _) |- _ => inversion H; clear H; subst end.
    repeat constructor; assumption.
  - destruct (startswith_exclusive kind) as (Hp & _ & _).
    destruct (Hp Hk) as (-> & -> & ->). cbn [andb]. discriminate.
Qed.

Lemma passwd_record_round_trip_witness :
  ∃ pw extra,
    "alice:x:1001:1001:Alice:/home/alice:/bin/bash"
    = str_join ":" ("alice" :: pw :: "1001" :: "1001" :: "Alice" :: "/home/alice"
                    :: "/bin/bash" :: extra).
Proof.
  apply (passwd_record_round_trip "passwd" "web01"
           "alice:x:1001:1001:Alice:/home/alice:/bin/bash"
           "web01" "alice" "1001" "1001" "Alice" "/home/alice" "/bin/bash");
    reflexivity.
Defined.

Lemma has_char_app (c : ascii) (a b : string) :
  has_char c (a +:+ b) = has_char c a || has_char c b.
Proof.
  induction a as [|d a IH]; [reflexivity|].
  rewrite str_app_cons. cbn [has_char]. rewrite IH, orb_assoc. reflexivity.
Qed.

Lemma str_join_no_char (c : ascii) (sep : string) (parts : list string) :
  has_char c (str_join sep parts) = false → Forall (λ p, has_char c p = false) parts.
Proof.
  induction parts as [|p parts IH]; [constructor|].
  destruct parts as [|q parts]; cbn [str_join].
  - intros H. repeat constructor. exact H.
  - rewrite !has_char_app. intros H.
    apply orb_false_iff in H as [Hp H]. apply orb_false_iff in H as [_ H].
    constructor; [exact Hp | apply IH, H].
Qed.

(** X8: a group record gives the line back.  The member list is empty
    exactly when the line has three fields; with a fourth field the members
    are its comma-separated parts, so the list is never empty then. *)
Theorem group_record_round_trip (kind hostname line : string)
    (h group gid : string) (members : list string) :
  startswith kind "group" = true →
  structured_line kind hostname line = Some (Group h group gid members) →
  (members = [] ∧ ∃ pw, line = str_join ":" [group; pw; gid])
  ∨ (members ≠ []
     ∧ Forall (λ m, has_char "," m = false ∧ has_char ":" m = false) members
     ∧ ∃ pw extra,
         line = str_join ":" (group :: pw :: gid :: str_join "," members :: extra)).
Proof.
  intros Hk. unfold structured_line.
  destruct (startswith_exclusive kind) as (_ & _ & Hg).
  destruct (Hg Hk) as (-> & -> & ->). rewrite Hk. cbn [andb].
  destruct (str_split_join ":" line) as [Hjoin Hparts].
  destruct (3 <=? length (str_split ":" line))%nat eqn:Hlen; [| discriminate].
  destruct (str_split ":" line) as [|f0 [|f1 [|f2 rest]]]; try discriminate Hlen.
  unfold field. cbn [nth]. destruct rest as [|f3 extra].
  - cbn. intros [= <- <- <- <-]. left. split; [reflexivity|].
    exists f1. symmetry. exact Hjoin.
  - cbn [length Nat.ltb Nat.leb]. intros [= <- <- <- <-]. right.
    destruct (str_split_join "," f3) as [Hj3 Hp3].
    destruct (str_split_cons "," f3) as (m & ms & E).
    split; [rewrite E; discriminate|]. split.
    + assert (Hf3 : has_char ":" f3 = false).
      { repeat match goal with H : Forall _ (_ :: _) |- _ => inversion H; clear H; subst end.
        assumption. }
      rewrite <- Hj3 in Hf3. apply str_join_no_char in Hf3.
      rewrite Forall_forall in Hp3, Hf3. apply Forall_forall. intros x Hx.
      split; [apply Hp3, Hx | apply Hf3, Hx].
    + exists f1, extra. rewrite Hj3. symmetry. exact Hjoin.
Qed.

Lemma group_record_round_trip_witness :
  (["alice"; "bob"] = [] ∧ ∃ pw, "admins:x:1000:alice,bob" = str_join ":" ["admins"; pw; "1000"])
  ∨ (["alice"; "bob"] ≠ []
     ∧ Forall (λ m, has_char "," m = false ∧ has_char ":" m = false) ["alice"; "bob"]
     ∧ ∃ pw extra,
         "admins:x:1000:alice,bob"
         = str_join ":" ("admins" :: pw :: "1000" :: str_join "," ["alice"; "bob"] :: extra)).
Proof.
  apply (group_record_round_trip "group" "web01" "admins:x:1000:alice,bob"
           "web01" "admins" "1000" ["alice"; "bob"]); reflexivity.
Defined.

(** The usual line of a group without members ends in a colon: its fourth
    field is empty and the record has one member, the empty string. *)
Example group_without_members :
  structured_line "group" "web01" "wheel:x:10:" = Some (Group "web01" "wheel" "10" [""]).
Proof. reflexivity. Qed.

Lemma replace_char_no_char (a b : ascii) (s : string) :
  has_char a s = false → replace_char a b s = s.
Proof.
  induction s as [|c s IH]; [reflexivity|].
  cbn [has_char replace_char]. intros H. apply orb_false_iff in H as [Hc Hs].
  rewrite Hc, (IH Hs). reflexivity.
Qed.

Lemma replace_char_gone (a b : ascii) (s : string) :
  a ≠ b → has_char a (replace_char a b s) = false.
Proof.
  intros Hab. induction s as [|c s IH]; [reflexivity|].
  cbn [replace_char has_char]. rewrite IH, orb_false_r.
  destruct (Ascii.eqb_spec c a) as [->|Hne]; apply Ascii.eqb_neq; congruence.
Qed.

(** X9: two originals share a JSON name exactly when they agree after
    every dot is replaced by an underscore; names without dots never
    collide; the JSON name has one dot, that of its suffix. *)
Theorem json_name_collisions (file1 file2 : string) :
  (json_name file1 = json_name file2 ↔
     replace_char "." "_" file1 = replace_char "." "_" file2)
  ∧ (has_char "." file1 = false → has_char "." file2 = false →
     file1 ≠ file2 → json_name file1 ≠ json_name file2)
  ∧ (∃ stem, json_name file1 = stem +:+ ".json" ∧ has_char "." stem = false
             ∧ String.length stem = String.length file1).
Proof.
  unfold json_name. split; [| split].
  - split; [apply str_app_inv_tail | intros ->; reflexivity].
  - intros H1 H2 Hne H. apply Hne. apply str_app_inv_tail in H.
    rewrite !replace_char_no_char in H by assumption. exact H.
  - exists (replace_char "." "_" file1). split; [reflexivity|].
    split; [apply replace_char_gone; discriminate|].
    induction file1 as [|c s IH]; [reflexivity | cbn; f_equal; exact IH].
Qed.

Lemma json_name_collisions_witness :
  json_name "web01__auth_and_users__root__passwd"
  ≠ json_name "web01__auth_and_users__root__shadow".
Proof.
  apply (proj1 (proj2 (json_name_collisions "web01__auth_and_users__root__passwd"
                         "web01__auth_and_users__root__shadow")));
    [reflexivity | reflexivity | discriminate].
Defined.





Lemma lstrip_blank_app (pre x : string) :
  is_blank pre = true → lstrip (pre +:+ x) = lstrip x.
Proof.
  induction pre as [|c pre IH]; [reflexivity|].
  cbn [is_blank]. intros H. apply andb_prop in H as [Hc Hpre].
  rewrite str_app_cons. cbn [lstrip]. rewrite Hc. apply IH, Hpre.
Qed.

Lemma rstrip_blank (post : string) : is_blank post = true → rstrip post = "".
Proof.
  induction post as [|c post IH]; [reflexivity|].
  cbn [is_blank]. intros H. apply andb_prop in H as [Hc Hpost].
  cbn [rstrip]. rewrite (IH Hpost), Hc. reflexivity.
Qed.

Lemma rstrip_app_blank (x post : string) :
  is_blank post = true → rstrip (x +:+ post) = rstrip x.
Proof.
  intros Hpost. induction x as [|c x IH]; [apply rstrip_blank, Hpost|].
  rewrite str_app_cons. cbn [rstrip]. rewrite IH. reflexivity.
Qed.

Lemma lower_char_y (c : ascii) :
  lower_char c = "y"%char ↔ c = "y"%char ∨ c = "Y"%char.
Proof.
  split.
  - destruct c as [[] [] [] [] [] [] [] []]; vm_compute; intros H;
      first [discriminate H | left; reflexivity | right; reflexivity].
  - intros [-> | ->]; reflexivity.
Qed.

(** X11: parsing runs exactly when the answer is one letter, y or Y, with
    white space at most around it. *)
Theorem wants_parse_spec (answer : string) :
  wants_parse answer = true ↔
  ∃ pre c post, answer = pre +:+ String c post
    ∧ is_blank pre = true ∧ is_blank post = true
    ∧ (c = "y"%char ∨ c = "Y"%char).
Proof.
  unfold wants_parse. rewrite String.eqb_eq. split.
  - intros H. destruct (strip_split answer) as (pre & post & Ha & Hpre & Hpost).
    destruct (strip answer) as [|c [|d s]]; try discriminate H.
    cbn [lower] in H. injection H as H. apply lower_char_y in H.
    exists pre, c, post. rewrite str_app_cons, str_app_nil_l in Ha. auto.
  - intros (pre & c & post & -> & Hpre & Hpost & Hc).
    unfold strip. rewrite (lstrip_blank_app pre _ Hpre).
    assert (Hsp : isspace c = false) by (destruct Hc as [-> | ->]; reflexivity).
    cbn [lstrip]. rewrite Hsp.
    change (String c post) with (String c "" +:+ post).
    rewrite (rstrip_app_blank _ post Hpost). cbn [rstrip]. rewrite Hsp.
    cbn [lower]. f_equal. apply lower_char_y, Hc.
Qed.

Example wants_parse_yes :
  wants_parse " Y " = true ∧ wants_parse "yes" = false ∧ wants_parse "" = false.
Proof. repeat split. Qed.








Lemma startswith_app_cons (a b : string) :
  a ≠ "" → startswith (a +:+ b) "/" = startswith a "/".
Proof.
  destruct a as [|c a]; [congruence|]. intros _. rewrite str_app_cons.
  apply startswith_slash_cons.
Qed.

Lemma hash_dst_inj (output_path system_name : string) :
  Inj (=) (=) (hash_dst output_path system_name).
Proof.
  intros f1 f2 H. unfold hash_dst in H.
  rewrite (path_join_rel _ (system_name +:+ "__" +:+ f1)) in H.
  rewrite (path_join_rel _ (system_name +:+ "__" +:+ f2)) in H.
  assert (Hs : ∀ f, startswith (system_name +:+ "__" +:+ f) "/" = startswith (system_name +:+ "__") "/").
  { intros f. rewrite <- str_app_assoc. apply startswith_app_cons.
    destruct system_name; discriminate. }
  rewrite !Hs in H.
  destruct (startswith (system_name +:+ "__") "/");
    [| apply str_app_inv_head in H];
    apply str_app_inv_head in H; apply str_app_inv_head in H; exact H.
Qed.

Lemma copy_hashes_foldl (output_path system_name system_path : string)
    (entries hs : list (string * node)) (st : fs_state) :
  entry "hash_executables" entries = Some (Dir hs) →
  copy_hashes output_path system_name system_path entries st
    = foldl (copy_hash output_path system_name system_path) st hs.
Proof. intros H. unfold copy_hashes. rewrite H. reflexivity. Qed.

Lemma copy_hash_foldl_spec (output_path system_name system_path : string)
    (hs : list (string * node)) (st : fs_state) :
  let st' := foldl (copy_hash output_path system_name system_path) st hs in
  (NoDup (fst <$> hs) →
   ∀ name d, (name, File d) ∈ hs →
     files st' !! hash_dst output_path system_name name = Some d)
  ∧ (∀ p, (∀ name d, (name, File d) ∈ hs → p ≠ hash_dst output_path system_name name) →
       files st' !! p = files st !! p)
  ∧ dom (files st) ⊆ dom (files st').
Proof.
  induction hs as [|[name n] hs IH] using rev_ind;
    [cbn; split; [intros _ ? ? H; apply elem_of_nil in H; destruct H | split; reflexivity]|].
  cbn zeta in *. rewrite foldl_app. cbn [foldl].
  set (st1 := foldl (copy_hash output_path system_name system_path) st hs) in *.
  destruct IH as (IHin & IHout & IHdom).
  split; [| split].
  - intros Hnd name' d' Hin. rewrite fmap_app in Hnd. apply NoDup_app in Hnd as (Hnd & Hdisj & _).
    apply elem_of_app in Hin as [Hin | Hin].
    + assert (Hne : name' ≠ name).
      { intros ->. apply (Hdisj name).
        - apply list_elem_of_fmap. exists (name, File d'). split; [reflexivity | exact Hin].
        - cbn. apply list_elem_of_singleton. reflexivity. }
      unfold copy_hash. cbn [fst snd]. destruct n as [d|]; [| apply IHin; assumption].
      cbn [copy2 files]. rewrite lookup_insert_ne; [apply IHin; assumption|].
      intros H. apply hash_dst_inj in H. congruence.
    + apply list_elem_of_singleton in Hin. injection Hin as -> <-.
      unfold copy_hash. cbn [fst snd copy2 files]. apply lookup_insert_eq.
  - intros p Hp. unfold copy_hash. cbn [fst snd].
    assert (Hp' : ∀ name0 d, (name0, File d) ∈ hs → p ≠ hash_dst output_path system_name name0).
    { intros name0 d Hin. apply (Hp name0 d). apply elem_of_app. left. exact Hin. }
    destruct n as [d|]; [| apply IHout, Hp'].
    cbn [copy2 files]. rewrite lookup_insert_ne; [apply IHout, Hp'|].
    intros H. apply (Hp name d); [| symmetry; exact H].
    apply elem_of_app. right. apply list_elem_of_singleton. reflexivity.
  - etrans; [exact IHdom|]. unfold copy_hash. cbn [fst snd].
    destruct n as [d|]; [| reflexivity]. cbn [copy2 files]. rewrite dom_insert_L.
    apply union_subseteq_r.
Qed.

(** X13: within one system the hash copy is complete: every regular file
    of [hash_executables] is in [hashes/original] afterwards under
    [<system>__<name>], and no other path changes. *)
Theorem copy_hashes_complete (output_path system_name system_path : string)
    (entries hs : list (string * node)) (st : fs_state) :
  entry "hash_executables" entries = Some (Dir hs) →
  NoDup (fst <$> hs) →
  let st' := copy_hashes output_path system_name system_path entries st in
  (∀ name d, (name, File d) ∈ hs →
     files st' !! path_join (path_join (path_join output_path "hashes") "original")
                    (system_name +:+ "__" +:+ name) = Some d)
  ∧ (∀ p, (∀ name d, (name, File d) ∈ hs →
             p ≠ path_join (path_join (path_join output_path "hashes") "original")
                   (system_name +:+ "__" +:+ name)) →
       files st' !! p = files st !! p).
Proof.
  intros He Hnd st'. unfold st'. rewrite (copy_hashes_foldl _ _ _ _ hs _ He).
  destruct (copy_hash_foldl_spec output_path system_name system_path hs st) as (H1 & H2 & _).
  split; [exact (H1 Hnd) | exact H2].
Qed.

Lemma copy_hashes_complete_witness :
  files (copy_hashes "out" "web01" "in/web01"
           [("hash_executables",
               Dir [("hash_executables.md5", File [Byte.x31]);
                    ("hash_executables.sha1", File [Byte.x32])])]
           stale_fs)
    !! "out/hashes/original/web01__hash_executables.sha1" = Some [Byte.x32].
Proof.
  apply (proj1 (copy_hashes_complete "out" "web01" "in/web01"
                  [("hash_executables",
                      Dir [("hash_executables.md5", File [Byte.x31]);
                           ("hash_executables.sha1", File [Byte.x32])])]
                  [("hash_executables.md5", File [Byte.x31]);
                   ("hash_executables.sha1", File [Byte.x32])]
                  stale_fs eq_refl
                  ltac:(repeat constructor; intros H;
                        repeat (apply elem_of_cons in H as [H | H]; [discriminate H|]);
                        apply elem_of_nil in H; exact H))
           "hash_executables.sha1" [Byte.x32]).
  apply elem_of_cons. right. apply elem_of_cons. left. reflexivity.
Defined.









Lemma contains_trans (a b s : string) :
  contains a b = true → contains b s = true → contains a s = true.
Proof.
  rewrite !contains_spec. intros (p & q & ->) (x & y & ->).
  exists (x +:+ p), (q +:+ y). rewrite !str_app_assoc. reflexivity.
Qed.

Lemma orb_absorb (a b : bool) : (b = true → a = true) → a || b = a.
Proof. destruct a, b; intros H; try reflexivity. symmetry. apply H. reflexivity. Qed.

(** X16: the keywords "crontab" and ".bash_history" never decide: every
    file is classified the same without them. *)
Theorem redundant_keywords (file : string) :
  matching_categories CATEGORIES file = matching_categories CATEGORIES_short file
  ∧ spec_classify CATEGORIES file = spec_classify CATEGORIES_short file.
Proof.
  assert (H : matching_categories CATEGORIES file = matching_categories CATEGORIES_short file).
  { unfold CATEGORIES, CATEGORIES_short. rewrite !matching_categories_cons.
    assert (H1 : selects file ("auth_and_users",
                   ["passwd"; "shadow"; "group"; "login"; "who"; "lastlog"; "bash_history";
                    ".bash_history"])
                 = selects file ("auth_and_users",
                   ["passwd"; "shadow"; "group"; "login"; "who"; "lastlog"; "bash_history"])).
    { unfold selects, matches. cbn [fst snd existsb negb String.eqb Ascii.eqb Bool.eqb andb].
      rewrite !orb_false_r. do 6 f_equal. apply orb_absorb.
      apply contains_trans. reflexivity. }
    assert (H2 : selects file ("cron_persistence", ["cron"; "crontab"; "at"; "systemd-timers"])
                 = selects file ("cron_persistence", ["cron"; "at"; "systemd-timers"])).
    { unfold selects, matches. cbn [fst snd existsb negb String.eqb Ascii.eqb Bool.eqb andb].
      rewrite !orb_false_r, orb_assoc. f_equal. apply orb_absorb.
      apply contains_trans. reflexivity. }
    rewrite H1, H2. reflexivity. }
  split; [exact H|]. rewrite <- !head_matching, H. reflexivity.
Qed.

Lemma rfind_absent (c : ascii) (s : string) : has_char c s = false → rfind c s = None.
Proof.
  induction s as [|d s IH]; [reflexivity|].
  cbn [has_char rfind]. intros H. apply orb_false_iff in H as [Hd Hs].
  rewrite (IH Hs), Hd. reflexivity.
Qed.

Lemma basename_after_slash (x file : string) :
  has_char "/" file = false → basename (x +:+ "/" +:+ file) = file.
Proof.
  intros Hf. unfold basename.
  assert (H : rfind "/" (x +:+ "/" +:+ file) = Some (String.length x)).
  { induction x as [|c x IH].
    - rewrite str_app_nil_l, str_app_cons, str_app_nil_l. cbn [rfind].
      rewrite (rfind_absent _ _ Hf). reflexivity.
    - rewrite str_app_cons. cbn [rfind String.length]. rewrite IH. reflexivity. }
  rewrite H. clear H. induction x as [|c x IH]; [reflexivity|].
  rewrite str_app_cons. cbn [String.length str_drop]. exact IH.
Qed.

Lemma startswith_no_slash (file : string) :
  has_char "/" file = false → startswith file "/" = false.
Proof.
  destruct file as [|c file]; [reflexivity|]. cbn [has_char]. intros H.
  apply orb_false_iff in H as [Hc _]. unfold startswith. cbn [String.prefix].
  destruct (ascii_dec "/" c) as [<-|?]; [discriminate Hc | reflexivity].
Qed.

Lemma basename_join (d file : string) :
  has_char "/" file = false → basename (path_join d file) = file.
Proof.
  intros Hf. unfold path_join. rewrite (startswith_no_slash file Hf).
  destruct (String.eqb_spec d "") as [->|Hd]; cbn [orb].
  - rewrite str_app_nil_l. unfold basename. rewrite (rfind_absent _ _ Hf). reflexivity.
  - destruct (String.eqb_spec (str_drop (String.length d - 1) d) "/") as [Hs|Hs].
    + rewrite <- (str_take_drop (String.length d - 1) d), Hs, str_app_assoc.
      apply basename_after_slash, Hf.
    + apply basename_after_slash, Hf.
Qed.

(** X17: the [source_file] of a log record is the name of the collected
    original (a name without a separator), not its path. *)
Theorem log_source_file (dir file hostname : string) (f : list string) :
  has_char "/" file = false →
  basename (path_join dir file) = file
  ∧ log_records hostname (path_join dir file) f =
      map (λ l, LogLine hostname file (strip l)) (filter (λ l, strip l ≠ "") f).
Proof.
  intros Hf. split; [apply basename_join, Hf|].
  rewrite log_records_map, (basename_join dir file Hf). reflexivity.
Qed.

Lemma log_source_file_witness :
  basename (path_join "out/system_and_auth_logs/original"
              "web01__system_and_auth_logs__root__dmesg")
  = "web01__system_and_auth_logs__root__dmesg".
Proof.
  apply (log_source_file "out/system_and_auth_logs/original"
           "web01__system_and_auth_logs__root__dmesg" "web01" []).
  reflexivity.
Defined.

(** X18: in [auth_and_users] the strategy is chosen by the first of
    "passwd", "shadow", "group" that occurs anywhere in the name of the
    original, case-sensitively. *)
Theorem auth_strategy_precedence (output_path name : string) (v : file_view)
    (st : run_state) :
  let dst := path_join (path_join (path_join output_path "auth_and_users") "parsed")
               (json_name name) in
  is_text_file (fv_bytes v) default_threshold = true →
  (contains "passwd" name = true →
     parse_file output_path "auth_and_users" name v st
     = parse_structured_config (fv_lines v) dst "passwd" (extract_hostname name) st)
  ∧ (contains "passwd" name = false → contains "shadow" name = true →
     parse_file output_path "auth_and_users" name v st
     = parse_structured_config (fv_lines v) dst "shadow" (extract_hostname name) st)
  ∧ (contains "passwd" name = false → contains "shadow" name = false →
     contains "group" name = true →
     parse_file output_path "auth_and_users" name v st
     = parse_structured_config (fv_lines v) dst "group" (extract_hostname name) st).
Proof.
  intros dst Htext. unfold parse_file. fold dst. rewrite Htext. cbn [negb].
  change (keywords_of "auth_and_users")
    with ["passwd"; "shadow"; "group"; "login"; "who"; "lastlog"; "bash_history";
          ".bash_history"].
  cbn [find].
  split; [| split].
  - intros ->. reflexivity.
  - intros -> ->. reflexivity.
  - intros -> -> ->. reflexivity.
Qed.

Lemma auth_strategy_precedence_witness :
  all_parsed (parse_file "out" "auth_and_users" "passwd_srv__auth_and_users__root__shadow"
                {| fv_bytes := Some [Byte.x61];
                   fv_lines := Some ["bob:*:18000:0:99999:7:::"] |} empty_run)
  = [Passwd "passwd_srv__auth_and_users__root__shadow" "bob" "18000" "0" "99999" "7" ""].
Proof.
  rewrite (proj1 (auth_strategy_precedence "out" "passwd_srv__auth_and_users__root__shadow"
                    {| fv_bytes := Some [Byte.x61];
                       fv_lines := Some ["bob:*:18000:0:99999:7:::"] |} empty_run
                    eq_refl) eq_refl).
  reflexivity.
Defined.
